(** * Shallow embedding of [agents/rag_agent/data_ingestion.py]

    The class [MedicalDataIngestion] is modelled as functions over an
    explicit accumulator ([stats]) threaded through a small state and
    exception monad.  The third-party libraries the code calls (UTF-8
    decoding, [pandas.read_csv], [json.load], [PyPDF2.PdfReader]) are
    kept abstract: they are section variables, so every theorem holds for
    any behaviour of these libraries. *)

From Stdlib Require Import String Ascii List Bool Arith Lia ZArith QArith.
Import ListNotations.
Open Scope list_scope.
Open Scope nat_scope.
Open Scope string_scope.
Set Warnings "-register-all".

(** ** Python values used by the module *)

(** A Python float as [json.load] returns it: a finite value, or one of
    the [NaN], [Infinity] and [-Infinity] it accepts by default.  Finite
    values are carried as rationals: the code only tests their type. *)
Inductive json_float : Type :=
| FFinite (q : Q)
| FNaN
| FInfinity (negative : bool).

(** A JSON value as returned by [json.load]: [JObj] is a Python dict,
    kept as its list of items in insertion order. *)
Inductive json : Type :=
| JNull
| JBool (b : bool)
| JInt (z : Z)
| JFloat (f : json_float)
| JStr (s : string)
| JArr (xs : list json)
| JObj (kvs : list (string * json)).

(** [isinstance(v, (str, int, float, bool))] *)
Definition is_scalar (v : json) : bool :=
  match v with
  | JBool _ | JInt _ | JFloat _ | JStr _ => true
  | _ => false
  end.

(** [isinstance(v, str)] *)
Definition is_str (v : json) : bool :=
  match v with JStr _ => true | _ => false end.

(** ** Python dicts: association lists with in-place update *)

Definition dict (V : Type) := list (string * V).

(** [d[k]] (returns [None] for a [KeyError]) *)
Fixpoint dict_get {V} (d : dict V) (k : string) : option V :=
  match d with
  | [] => None
  | (k', v) :: d' => if String.eqb k k' then Some v else dict_get d' k
  end.

(** [k in d] *)
Definition dict_mem {V} (d : dict V) (k : string) : bool :=
  match dict_get d k with Some _ => true | None => false end.

(** [d[k] = v]: an existing key keeps its position, a new key goes last. *)
Fixpoint dict_set {V} (d : dict V) (k : string) (v : V) : dict V :=
  match d with
  | [] => [(k, v)]
  | (k', v') :: d' =>
      if String.eqb k k' then (k', v) :: d' else (k', v') :: dict_set d' k v
  end.

(** A sequence of assignments [d[k] = v] in order. *)
Definition dict_set_all {V} (d : dict V) (kvs : list (string * V)) : dict V :=
  fold_left (fun acc kv => dict_set acc (fst kv) (snd kv)) kvs d.

(** [max(d.items(), key=lambda x: x[1])[0]]: Python's [max] keeps the
    current best unless a later item's key is strictly greater, so the
    first maximal item wins. *)
Fixpoint py_max_by {A K} (gt : K -> K -> bool) (key : A -> K) (best : A)
    (rest : list A) : A :=
  match rest with
  | [] => best
  | x :: rest' =>
      if gt (key x) (key best) then py_max_by gt key x rest'
      else py_max_by gt key best rest'
  end.

(** ** Documents and ingestion results *)

Record document : Type := mkDoc {
  content : string;
  metadata : dict json
}.

(** The dict returned by [ingest_file] and the extractors. *)
Inductive ingest_result : Type :=
| ROneDoc (d : document)          (* {"success": True, "document": d} *)
| RDocs (ds : list document)      (* {"success": True, "documents": ds} *)
| RFail (error : string).         (* {"success": False, "error": error} *)

(** [self.stats] *)
Record stats : Type := mkStats {
  files_processed : nat;
  documents_ingested : nat;
  errors : nat
}.

Definition stats0 : stats := mkStats 0 0 0.

Definition add_documents (n : nat) (s : stats) : stats :=
  mkStats (files_processed s) (documents_ingested s + n) (errors s).
Definition incr_files_processed (s : stats) : stats :=
  mkStats (S (files_processed s)) (documents_ingested s) (errors s).
Definition incr_errors (s : stats) : stats :=
  mkStats (files_processed s) (documents_ingested s) (S (errors s)).

(** ** A state and exception monad for the methods of the class *)

(** Exceptions that escape the extractors. *)
Inductive exn : Type :=
| FileNotFoundError (msg : string)
| ValueError (msg : string)
| LibError (msg : string).   (* raised inside a library call or by indexing *)

(** [str(e)] *)
Definition exn_str (e : exn) : string :=
  match e with FileNotFoundError m | ValueError m | LibError m => m end.

(** A method call: from the accumulator to an outcome and the new
    accumulator; a raised exception keeps the updates made before it. *)
Definition M (A : Type) : Type := stats -> (exn + A) * stats.

Definition ret {A} (a : A) : M A := fun s => (inr a, s).
Definition raise {A} (e : exn) : M A := fun s => (inl e, s).
Definition bind {A B} (m : M A) (k : A -> M B) : M B :=
  fun s => match m s with
           | (inl e, s') => (inl e, s')
           | (inr a, s') => k a s'
           end.
Definition modify (f : stats -> stats) : M unit := fun s => (inr tt, f s).
Definition get_stats : M stats := fun s => (inr s, s).

(** [try: m except Exception: h] *)
Definition try_except {A} (m : M A) (h : exn -> M A) : M A :=
  fun s => match m s with
           | (inl e, s') => h e s'
           | (inr a, s') => (inr a, s')
           end.

(** A library call whose failure is a raised exception. *)
Definition lift {A} (r : string + A) : M A :=
  match r with inl msg => raise (LibError msg) | inr a => ret a end.

Notation "x <- m ;; k" := (bind m (fun x => k))
  (at level 61, m at next level, right associativity).
Notation "m ;;; k" := (bind m (fun _ => k))
  (at level 61, right associativity).

(** ** [_identify_json_content_field] *)

Definition content_field_names : list string :=
  ["content"; "text"; "description"; "abstract"; "body"].

(** [for name in content_field_names:
       if name in item and isinstance(item[name], str): return name] *)
Fixpoint first_str_field (names : list string) (item : dict json)
    : option string :=
  match names with
  | [] => None
  | name :: names' =>
      match dict_get item name with
      | Some (JStr _) => Some name
      | _ => first_str_field names' item
      end
  end.

(** [if isinstance(value, str) and len(value) > 50:
       text_fields[key] = len(value)] *)
Definition text_field_entry (kv : string * json) : list (string * nat) :=
  match snd kv with
  | JStr s => if Nat.ltb 50 (String.length s)
              then [(fst kv, String.length s)] else []
  | _ => []
  end.

Definition json_text_fields (item : dict json) : dict nat :=
  dict_set_all [] (flat_map text_field_entry item).

Definition identify_json_content_field (item : dict json) : option string :=
  match first_str_field content_field_names item with
  | Some name => Some name
  | None =>
      match json_text_fields item with
      | [] => None
      | tf :: tfs => Some (fst (py_max_by (fun a b => Nat.ltb b a) snd tf tfs))
      end
  end.

(** ** DataFrames and [_identify_content_column] *)

(** A cell of a [pandas.DataFrame]: [CNull] is a missing value
    ([pd.isna] holds), [CVal s] a present value whose [str()] is [s]. *)
Inductive cell : Type :=
| CNull
| CVal (s : string).

(** [str(cell)]: a missing value prints as ["nan"]. *)
Definition cell_str (c : cell) : string :=
  match c with CNull => "nan" | CVal s => s end.

(** A column: its name and whether its dtype is [object]. *)
Record column : Type := mkColumn {
  col_name : string;
  col_is_object : bool
}.

(** The frame: its columns in schema order and its rows, each row a list
    of cells aligned with the columns. *)
Record DataFrame : Type := mkDataFrame {
  df_columns : list column;
  df_rows : list (list cell)
}.

Definition df_names (df : DataFrame) : list string := map col_name (df_columns df).

Fixpoint index_of (x : string) (l : list string) : option nat :=
  match l with
  | [] => None
  | y :: l' => if String.eqb x y then Some 0
               else option_map S (index_of x l')
  end.

(** [row[col]] *)
Definition row_get (df : DataFrame) (row : list cell) (name : string)
    : option cell :=
  match index_of name (df_names df) with
  | Some i => nth_error row i
  | None => None
  end.

(** [df[col]] *)
Definition df_column_cells (df : DataFrame) (name : string) : list cell :=
  map (fun row => match row_get df row name with Some c => c | None => CNull end)
      (df_rows df).

(** A float as pandas computes it: [None] is [NaN]. *)
Definition pyfloat := option Q.

(** [a > b] on floats; every comparison with [NaN] is false. *)
Definition pyfloat_gt (a b : pyfloat) : bool :=
  match a, b with
  | Some x, Some y => negb (Qle_bool x y)
  | _, _ => false
  end.

(** [series.astype(str).apply(len).mean()]: [NaN] on an empty series. *)
Definition mean_str_len (cs : list cell) : pyfloat :=
  match cs with
  | [] => None
  | _ => Some (Z.of_nat (list_sum (map (fun c => String.length (cell_str c)) cs))
               # Pos.of_nat (length cs))
  end.

(** [for name in content_column_names: if name in df.columns: return name] *)
Fixpoint first_present (names cols : list string) : option string :=
  match names with
  | [] => None
  | name :: names' =>
      if existsb (String.eqb name) cols then Some name
      else first_present names' cols
  end.

(** [df[col].astype(str).apply(len).mean()] *)
Definition column_mean (df : DataFrame) (c : column) : pyfloat :=
  mean_str_len (df_column_cells df (col_name c)).

(** [avg_lengths[col] = ...] for every column of dtype [object]. *)
Definition avg_lengths (df : DataFrame) : dict pyfloat :=
  dict_set_all []
    (map (fun c => (col_name c, column_mean df c))
         (filter col_is_object (df_columns df))).

(** [_identify_content_column]; [None] is the [IndexError] of
    [df.columns[0]] on a frame without columns. *)
Definition identify_content_column (df : DataFrame) : option string :=
  match first_present content_field_names (df_names df) with
  | Some name => Some name
  | None =>
      match avg_lengths df with
      | a :: rest => Some (fst (py_max_by pyfloat_gt snd a rest))
      | [] => hd_error (df_names df)
      end
  end.

(** ** Paths *)

Definition slash : ascii := "/"%char.
Definition dot : ascii := "."%char.

(** [str(Path(p))] on POSIX: the components between slashes, the empty
    ones and ['.'] dropped, after the root ([//] when the path starts with
    exactly two slashes, [/] when it starts with one or with three or more);
    ['.'] when nothing is left. *)
Fixpoint split_slash (l : list ascii) (cur : list ascii) : list (list ascii) :=
  match l with
  | [] => [rev cur]
  | c :: l' =>
      if Ascii.eqb c slash then rev cur :: split_slash l' []
      else split_slash l' (c :: cur)
  end.

Definition path_parts (p : string) : list string :=
  filter (fun part => negb (String.eqb part "") && negb (String.eqb part "."))
         (map string_of_list_ascii (split_slash (list_ascii_of_string p) [])).

Definition path_root (p : string) : string :=
  match list_ascii_of_string p with
  | c1 :: rest =>
      if Ascii.eqb c1 slash then
        match rest with
        | c2 :: rest' =>
            if Ascii.eqb c2 slash then
              match rest' with
              | c3 :: _ => if Ascii.eqb c3 slash then "/" else "//"
              | [] => "//"
              end
            else "/"
        | [] => "/"
        end
      else ""
  | [] => ""
  end.

Definition path_str (p : string) : string :=
  match path_root p, path_parts p with
  | EmptyString, [] => "."
  | root, parts => root ++ String.concat "/" parts
  end.

(** [Path(p).name]: the last component, [''] when there is none. *)
Definition path_name (p : string) : string := last (path_parts p) "".

(** [name.rfind('.')], [-1] as [None] *)
Fixpoint rfind_from (c : ascii) (l : list ascii) (i : nat) (acc : option nat)
    : option nat :=
  match l with
  | [] => acc
  | x :: l' => rfind_from c l' (S i) (if Ascii.eqb x c then Some i else acc)
  end.

(** [PurePath.suffix]:
    [i = name.rfind('.'); return name[i:] if 0 < i < len(name) - 1 else ''] *)
Definition path_suffix (p : string) : string :=
  let name := path_name p in
  match rfind_from dot (list_ascii_of_string name) 0 None with
  | Some i =>
      if Nat.ltb 0 i && Nat.ltb i (String.length name - 1)
      then substring i (String.length name - i) name else ""
  | None => ""
  end.

(** [str.lower()] on ASCII letters. *)
Definition ascii_lower (c : ascii) : ascii :=
  let n := nat_of_ascii c in
  if Nat.leb 65 n && Nat.leb n 90 then ascii_of_nat (n + 32) else c.

Definition str_lower (s : string) : string :=
  string_of_list_ascii (map ascii_lower (list_ascii_of_string s)).

(** [s.endswith(t)] *)
Definition ends_with (t s : string) : bool :=
  Nat.leb (String.length t) (String.length s) &&
  String.eqb (substring (String.length s - String.length t) (String.length t) s) t.

(** [str(n)] for a natural number. *)
Fixpoint nat_digits (fuel n : nat) (acc : string) : string :=
  match fuel with
  | 0 => acc
  | S fuel' =>
      let acc' := String (ascii_of_nat (48 + n mod 10)) acc in
      if Nat.ltb n 10 then acc' else nat_digits fuel' (n / 10) acc'
  end.

Definition nat_str (n : nat) : string := nat_digits (S n) n "".

Definition newline : string := String (ascii_of_nat 10) "".

(** ** The file system and the libraries the code calls *)

(** A file holds bytes; a directory lists the full paths of its entries
    in the order [iterdir] and [glob] yield them. *)
Inductive entry : Type :=
| EFile (bytes : string)
| EDir (children : list string).

Definition filesystem := dict entry.

(** What [PdfReader] exposes: the text [extract_text()] returns for each
    page, and [reader.metadata] ([None] when the file has no info dict). *)
Record PdfDoc : Type := mkPdfDoc {
  pdf_pages : list string;
  pdf_metadata : option (dict json)
}.

(** [lambda: raise exc] for an absent value. *)
Definition lift_opt {A} (msg : string) (o : option A) : M A :=
  match o with Some a => ret a | None => raise (LibError msg) end.

Fixpoint mapM {A B} (f : A -> M B) (l : list A) : M (list B) :=
  match l with
  | [] => ret []
  | x :: l' => y <- f x ;; ys <- mapM f l' ;; ret (y :: ys)
  end.

Definition reserved (p : string) (file_type : string) : dict json :=
  [("source", JStr (path_name p)); ("file_type", JStr file_type)].

(** An extension [glob] reads literally: no wildcard character
    ([*], [?], [[]) and no separator. *)
Definition glob_literal (e : string) : bool :=
  forallb (fun c => negb (existsb (Ascii.eqb c) ["*"; "?"; "["; "/"]%char))
          (list_ascii_of_string e).

Section Ingestion.

(** The disk the program runs against. *)
Variable disk : filesystem.

(** The libraries: each either returns its value or raises an exception
    whose [str()] is the [inl] message. *)
Variable decode_utf8 : string -> string + string.
Variable parse_json : string -> string + json.
Variable parse_csv : string -> string + DataFrame.
Variable parse_pdf : string -> string + PdfDoc.

(** [Path(p).exists()], [is_dir()], [is_file()]: the disk is keyed by
    paths as [str(Path(...))] prints them. *)
Definition path_exists (p : string) : bool := dict_mem disk (path_str p).
Definition path_is_dir (p : string) : bool :=
  match dict_get disk (path_str p) with Some (EDir _) => true | _ => false end.
Definition path_is_file (p : string) : bool :=
  match dict_get disk (path_str p) with Some (EFile _) => true | _ => false end.

(** [open(Path(p), 'rb').read()] *)
Definition read_bytes (p : string) : string + string :=
  match dict_get disk (path_str p) with
  | Some (EFile b) => inr b
  | Some (EDir _) => inl ("[Errno 21] Is a directory: '" ++ path_str p ++ "'")
  | None => inl ("[Errno 2] No such file or directory: '" ++ path_str p ++ "'")
  end.

Definition and_then {A B} (r : string + A) (f : A -> string + B) : string + B :=
  match r with inl e => inl e | inr a => f a end.

(** [open(p, 'r', encoding='utf-8').read()] *)
Definition read_text (p : string) : string + string :=
  and_then (read_bytes p) decode_utf8.
(** [json.load(open(p, 'r', encoding='utf-8'))] *)
Definition json_load (p : string) : string + json :=
  and_then (read_text p) parse_json.
(** [pd.read_csv(p)] *)
Definition read_csv (p : string) : string + DataFrame :=
  and_then (read_bytes p) parse_csv.
(** [PdfReader(p)] with the text of every page extracted. *)
Definition pdf_reader (p : string) : string + PdfDoc :=
  and_then (read_bytes p) parse_pdf.

(** The [except Exception as e: return {"success": False, "error": str(e)}]
    clause shared by the extractors. *)
Definition failure (e : exn) : M ingest_result := ret (RFail (exn_str e)).

(** *** [_ingest_text_file] *)
Definition ingest_text_file (p : string) : M ingest_result :=
  try_except
    (content <- lift (read_text p) ;;
     let md := reserved p "txt" in
     modify (add_documents 1) ;;;
     ret (ROneDoc (mkDoc content md)))
    failure.

(** *** [_ingest_csv_file] *)

(** [for col in df.columns:
       if col != text_column and not pd.isna(row[col]):
           metadata[col] = str(row[col])] *)
Definition csv_extra (df : DataFrame) (text_column : string) (row : list cell)
    : dict json :=
  flat_map (fun col =>
              if String.eqb col text_column then []
              else match row_get df row col with
                   | Some (CVal s) => [(col, JStr s)]
                   | _ => []   (* missing value *)
                   end)
           (df_names df).

Definition csv_row_metadata (p : string) (df : DataFrame) (text_column : string)
    (row : list cell) : dict json :=
  dict_set_all (reserved p "csv") (csv_extra df text_column row).

Definition csv_row_document (p : string) (df : DataFrame) (text_column : string)
    (row : list cell) : M document :=
  c <- lift_opt text_column (row_get df row text_column) ;;
  ret (mkDoc (cell_str c) (csv_row_metadata p df text_column row)).

Definition ingest_csv_file (p : string) : M ingest_result :=
  try_except
    (df <- lift (read_csv p) ;;
     text_column <- lift_opt "index 0 is out of bounds"
                      (identify_content_column df) ;;
     documents <- mapM (csv_row_document p df text_column) (df_rows df) ;;
     modify (add_documents (length documents)) ;;;
     ret (RDocs documents))
    failure.

(** *** [_ingest_json_file] *)

(** [for key, value in item.items():
       if key != content_field and isinstance(value, (str, int, float, bool)):
           metadata[key] = value] *)
Definition json_extra (item : dict json) (content_field : string) : dict json :=
  filter (fun kv => negb (String.eqb (fst kv) content_field) && is_scalar (snd kv))
         item.

(** One record object, with the metadata dict it starts from. *)
Definition json_record_document (md0 : dict json) (item : dict json)
    : list document :=
  match identify_json_content_field item with
  | Some content_field =>
      (* [if content_field:] -- the empty name is falsy *)
      if String.eqb content_field "" then []
      else match dict_get item content_field with
           | Some (JStr c) =>
               [mkDoc c (dict_set_all md0 (json_extra item content_field))]
           | _ => []   (* the located field always holds a string *)
           end
  | None => []
  end.

(** [if isinstance(data, list): ...] *)
Definition json_list_documents (p : string) (data : list json) : list document :=
  flat_map (fun item => match item with
                        | JObj kvs => json_record_document (reserved p "json") kvs
                        | _ => []
                        end) data.

(** [elif isinstance(data, dict): ...] *)
Definition json_dict_documents (p : string) (data : dict json) : list document :=
  flat_map (fun kv : string * json =>
              let (key, value) := kv in
              match value with
              | JStr s =>
                  if Nat.ltb 100 (String.length s)
                  then [mkDoc s (reserved p "json" ++ [("key", JStr key)])%list]
                  else []
              | JObj kvs =>
                  json_record_document
                    (reserved p "json" ++ [("document_id", JStr key)])%list kvs
              | _ => []
              end) data.

Definition json_documents (p : string) (data : json) : list document :=
  match data with
  | JArr xs => json_list_documents p xs
  | JObj kvs => json_dict_documents p kvs
  | _ => []
  end.

Definition ingest_json_file (p : string) : M ingest_result :=
  try_except
    (data <- lift (json_load p) ;;
     match json_documents p data with
     | [] => ret (RFail "No valid documents found")
     | documents =>
         modify (add_documents (length documents)) ;;;
         ret (RDocs documents)
     end)
    failure.

(** *** [_ingest_pdf_file] *)

(** [for page_num, page in enumerate(reader.pages):
       page_text = page.extract_text()
       if page_text: content += f"--- Page {page_num + 1} ---\n{page_text}\n\n"] *)
Fixpoint pdf_content_loop (page_num : nat) (pages : list string) (content : string)
    : string :=
  match pages with
  | [] => content
  | page_text :: pages' =>
      pdf_content_loop (S page_num) pages'
        (if String.eqb page_text "" then content
         else content ++ "--- Page " ++ nat_str (page_num + 1) ++ " ---"
                      ++ newline ++ page_text ++ newline ++ newline)
  end.

Definition pdf_content (pages : list string) : string :=
  pdf_content_loop 0 pages "".

(** [clean_key = key[1:] if key.startswith("/") else key] *)
Definition clean_key (key : string) : string :=
  match key with
  | String c rest => if Ascii.eqb c slash then rest else key
  | EmptyString => key
  end.

(** [for key, value in reader.metadata.items():
       if key and value and isinstance(value, str):
           metadata[clean_key.lower()] = value] *)
Definition pdf_extra (info : dict json) : dict json :=
  flat_map (fun kv =>
              match kv with
              | (key, JStr v) =>
                  if negb (String.eqb key "") && negb (String.eqb v "")
                  then [(str_lower (clean_key key), JStr v)] else []
              | _ => []
              end) info.

Definition pdf_reserved (p : string) (doc : PdfDoc) : dict json :=
  (reserved p "pdf" ++ [("num_pages", JInt (Z.of_nat (length (pdf_pages doc))))])%list.

Definition pdf_document_metadata (p : string) (doc : PdfDoc) : dict json :=
  dict_set_all (pdf_reserved p doc)
    (match pdf_metadata doc with Some info => pdf_extra info | None => [] end).

Definition ingest_pdf_file (p : string) : M ingest_result :=
  try_except
    (reader <- lift (pdf_reader p) ;;
     let content := pdf_content (pdf_pages reader) in
     let md := pdf_document_metadata p reader in
     modify (add_documents 1) ;;;
     ret (ROneDoc (mkDoc content md)))
    failure.

(** *** [ingest_file]: the dispatcher *)
Definition ingest_file (p : string) : M ingest_result :=
  if negb (path_exists p)
  then raise (FileNotFoundError ("File not found: " ++ path_str p))
  else
    let sfx := str_lower (path_suffix p) in
    if String.eqb sfx ".txt" then ingest_text_file p
    else if String.eqb sfx ".csv" then ingest_csv_file p
    else if String.eqb sfx ".json" then ingest_json_file p
    else if String.eqb sfx ".pdf" then ingest_pdf_file p
    else ret (RFail "Unsupported file format").

(** *** [ingest_directory] *)

(** [directory.glob(f"*{ext}")] or
    [[f for f in directory.iterdir() if f.is_file()]]: the glob is read as
    "every entry whose name ends with [ext]", which is what it means when
    [ext] is [glob_literal]. *)
Definition list_files (children : list string) (file_extension : option string)
    : list string :=
  match file_extension with
  | Some ext =>
      if String.eqb ext "" then filter path_is_file children
      else filter (fun f => ends_with ext (path_name f)) children
  | None => filter path_is_file children
  end.

(** [for file_path in files:
       try: self.ingest_file(str(file_path)); self.stats["files_processed"] += 1
       except Exception: self.stats["errors"] += 1] *)
Fixpoint ingest_files (files : list string) : M unit :=
  match files with
  | [] => ret tt
  | f :: files' =>
      try_except (ingest_file f ;;; modify incr_files_processed)
                 (fun _ => modify incr_errors) ;;;
      ingest_files files'
  end.

Definition ingest_directory (directory_path : string)
    (file_extension : option string) : M stats :=
  try_except
    (match dict_get disk (path_str directory_path) with
     | Some (EDir children) =>
         ingest_files (list_files children file_extension) ;;;
         get_stats
     | _ => raise (ValueError ("Directory does not exist: " ++ directory_path))
     end)
    (fun _ => get_stats).

End Ingestion.

(** The documents an [ingest_file] outcome carries. *)
Definition result_documents (r : ingest_result) : list document :=
  match r with
  | ROneDoc d => [d]
  | RDocs ds => ds
  | RFail _ => []
  end.

Definition outcome_documents (o : exn + ingest_result) : list document :=
  match o with inr r => result_documents r | inl _ => [] end.

(** ** Statements of the spec, as definitions

    The paginated layout the spec describes: every non-empty page, in
    page order, as a [--- Page N ---] block, pages numbered from 1. *)
Definition page_block (n : nat) (text : string) : string :=
  "--- Page " ++ nat_str n ++ " ---" ++ newline ++ text ++ newline ++ newline.

Definition pdf_content_spec (pages : list string) : string :=
  String.concat ""
    (map (fun nt => page_block (fst nt) (snd nt))
         (filter (fun nt => negb (String.eqb (snd nt) ""))
                 (combine (seq 1 (length pages)) pages))).

(** A frame as [pd.read_csv] returns it: at least one column, distinct
    column names, every row aligned with the columns. *)
Definition df_wf (df : DataFrame) : Prop :=
  df_columns df <> [] /\ NoDup (df_names df) /\
  Forall (fun row => length row = length (df_columns df)) (df_rows df).

(** A top-level key of a JSON mapping from which a document is derived:
    a string longer than 100 characters, or an object with a content
    field. *)
Definition json_key_yields_document (kv : string * json) : bool :=
  match snd kv with
  | JStr v => Nat.ltb 100 (String.length v)
  | JObj o => match identify_json_content_field o with Some _ => true | None => false end
  | _ => false
  end.

(** The document derived from such a key: a long string is the content
    of a document whose metadata is the reserved keys plus [key]; an
    object is a record whose located field is the content and whose
    scalar fields (the located one apart) are written over the reserved
    keys plus [document_id]. *)
Definition json_key_document (p : string) (kv : string * json) (d : document)
    : Prop :=
  match snd kv with
  | JStr v =>
      content d = v /\
      metadata d = (reserved p "json" ++ [("key", JStr (fst kv))])%list
  | JObj o =>
      exists f,
        identify_json_content_field o = Some f /\
        dict_get o f = Some (JStr (content d)) /\
        forall k,
          dict_get (metadata d) k =
          match dict_get (json_extra o f) k with
          | Some v => Some v
          | None => dict_get (reserved p "json" ++
                              [("document_id", JStr (fst kv))])%list k
          end
  | _ => False
  end.

(** An item of a top-level JSON list from which a document is derived:
    an object with a content field. *)
Definition json_item_yields_document (item : json) : bool :=
  match item with
  | JObj o => match identify_json_content_field o with Some _ => true | None => false end
  | _ => false
  end.

(** The document derived from such an item: its located field is the
    content and its scalar fields (the located one apart) are written over
    the reserved keys. *)
Definition json_item_document (p : string) (item : json) (d : document) : Prop :=
  match item with
  | JObj o =>
      exists f,
        identify_json_content_field o = Some f /\
        dict_get o f = Some (JStr (content d)) /\
        forall k,
          dict_get (metadata d) k =
          match dict_get (json_extra o f) k with
          | Some v => Some v
          | None => dict_get (reserved p "json") k
          end
  | _ => False
  end.

(** Counters added field by field. *)
Definition stats_plus (a b : stats) : stats :=
  mkStats (files_processed a + files_processed b)
          (documents_ingested a + documents_ingested b)
          (errors a + errors b).

(** ** Concrete inputs

    A small disk and library behaviour used to run the code on explicit
    inputs.  The libraries parse a payload by looking its bytes up in a
    table; any other payload is a parse error. *)
Module Fixture.

Definition utf8 (b : string) : string + string := inr b.

Definition table_parser {A} (tbl : dict A) (b : string) : string + A :=
  match dict_get tbl b with Some a => inr a | None => inl "parse error" end.

Definition long_text : string :=
  "Hypertension is a long-term medical condition in which the blood pressure in the arteries is persistently elevated.".

Definition json_table : dict json :=
  [("J1", JObj [("intro", JStr long_text);
                ("meta", JObj [("content", JStr "hello world"); ("tag", JStr "x")])]);
   ("J2", JObj [("meta", JObj [("content", JStr "hello");
                               ("document_id", JStr "x")])]);
   ("J3", JObj [("n", JInt 1); ("short", JStr "abc")])].

Definition csv_table : dict DataFrame :=
  [("C1", mkDataFrame [mkColumn "source" true; mkColumn "id" false]
                      [[CVal "hello"; CVal "1"]]);
   ("C2", mkDataFrame [mkColumn "id" false; mkColumn "title" true;
                       mkColumn "description" true]
                      [[CVal "1"; CVal "A title"; CNull];
                       [CNull; CVal "B"; CVal "Longer description text"]])].

Definition pdf_table : dict PdfDoc :=
  [("P1", mkPdfDoc ["Intro"; ""; "End"] (Some [("/Title", JStr "Guide")]));
   ("P2", mkPdfDoc ["Text"] (Some [("/Source", JStr "evil")]));
   ("P3", mkPdfDoc ["Text"] (Some [("/Num_Pages", JStr "99")]))].

Definition parse_json := table_parser json_table.
Definition parse_csv := table_parser csv_table.
Definition parse_pdf := table_parser pdf_table.

Definition disk : filesystem :=
  [("/d", EDir ["/d/scan.xyz"; "/d/notes.txt"]);
   ("/d/scan.xyz", EFile "binary");
   ("/d/notes.txt", EFile "Patient notes");
   ("/e", EDir ["/e/a.json"; "/e/b.json"; "/e/c.json"; "/e/t.csv"; "/e/u.CSV";
                "/e/r.pdf"; "/e/s.pdf"; "/e/v.pdf"]);
   ("/e/a.json", EFile "J1"); ("/e/b.json", EFile "J2"); ("/e/c.json", EFile "J3");
   ("/e/t.csv", EFile "C1"); ("/e/u.CSV", EFile "C2");
   ("/e/r.pdf", EFile "P1"); ("/e/s.pdf", EFile "P2"); ("/e/v.pdf", EFile "P3")].

(** [MedicalDataIngestion().ingest_file(p)] on this disk. *)
Definition run_file (p : string) : (exn + ingest_result) * stats :=
  ingest_file disk utf8 parse_json parse_csv parse_pdf p stats0.

Definition run_directory (dir : string) : (exn + stats) * stats :=
  ingest_directory disk utf8 parse_json parse_csv parse_pdf dir None stats0.

End Fixture.

(** * Proofs *)

(** ** Reasoning principles for the monad *)

Module Frame.

(** [m] leaves [files_processed] and [errors] as they were. *)
Definition keeps_counters {A} (m : M A) : Prop :=
  forall s, files_processed (snd (m s)) = files_processed s /\
            errors (snd (m s)) = errors s.

(** The outcome of [m] does not depend on the accumulator. *)
Definition stats_blind {A} (m : M A) : Prop :=
  forall s1 s2, fst (m s1) = fst (m s2).

Lemma keeps_ret {A} (a : A) : keeps_counters (ret a).
Proof. intro s; split; reflexivity. Qed.

Lemma keeps_raise {A} (e : exn) : keeps_counters (A := A) (raise e).
Proof. intro s; split; reflexivity. Qed.

Lemma keeps_add_documents n : keeps_counters (modify (add_documents n)).
Proof. intro s; split; reflexivity. Qed.

Lemma keeps_bind {A B} (m : M A) (k : A -> M B) :
  keeps_counters m -> (forall a, keeps_counters (k a)) ->
  keeps_counters (bind m k).
Proof.
  intros Hm Hk s; unfold bind.
  specialize (Hm s); destruct (m s) as [[e|a] s'] eqn:E; simpl in *; [exact Hm|].
  destruct (Hk a s') as [H1 H2]; destruct Hm as [H3 H4]; split; congruence.
Qed.

Lemma keeps_try {A} (m : M A) (h : exn -> M A) :
  keeps_counters m -> (forall e, keeps_counters (h e)) ->
  keeps_counters (try_except m h).
Proof.
  intros Hm Hh s; unfold try_except.
  specialize (Hm s); destruct (m s) as [[e|a] s'] eqn:E; simpl in *; [|exact Hm].
  destruct (Hh e s') as [H1 H2]; destruct Hm as [H3 H4]; split; congruence.
Qed.

Lemma keeps_lift {A} (r : string + A) : keeps_counters (lift r).
Proof. destruct r; [apply keeps_raise | apply keeps_ret]. Qed.

Lemma keeps_lift_opt {A} msg (o : option A) : keeps_counters (lift_opt msg o).
Proof. destruct o; [apply keeps_ret | apply keeps_raise]. Qed.

Lemma keeps_mapM {A B} (f : A -> M B) l :
  (forall x, keeps_counters (f x)) -> keeps_counters (mapM f l).
Proof.
  intro Hf; induction l as [|x l IH]; simpl.
  - apply keeps_ret.
  - apply keeps_bind; [apply Hf|]; intro; apply keeps_bind; [exact IH|].
    intro; apply keeps_ret.
Qed.

Lemma blind_ret {A} (a : A) : stats_blind (ret a).
Proof. intros s1 s2; reflexivity. Qed.

Lemma blind_raise {A} (e : exn) : stats_blind (A := A) (raise e).
Proof. intros s1 s2; reflexivity. Qed.

Lemma blind_modify f : stats_blind (modify f).
Proof. intros s1 s2; reflexivity. Qed.

Lemma blind_bind {A B} (m : M A) (k : A -> M B) :
  stats_blind m -> (forall a, stats_blind (k a)) -> stats_blind (bind m k).
Proof.
  intros Hm Hk s1 s2; unfold bind; specialize (Hm s1 s2).
  destruct (m s1) as [[e1|a1] s1'], (m s2) as [[e2|a2] s2'];
    simpl in Hm; inversion Hm; subst; simpl; [reflexivity | apply Hk].
Qed.

Lemma blind_try {A} (m : M A) (h : exn -> M A) :
  stats_blind m -> (forall e, stats_blind (h e)) ->
  stats_blind (try_except m h).
Proof.
  intros Hm Hh s1 s2; unfold try_except; specialize (Hm s1 s2).
  destruct (m s1) as [[e1|a1] s1'], (m s2) as [[e2|a2] s2'];
    simpl in Hm; inversion Hm; subst; simpl; [apply Hh | reflexivity].
Qed.

Lemma blind_lift {A} (r : string + A) : stats_blind (lift r).
Proof. destruct r; [apply blind_raise | apply blind_ret]. Qed.

Lemma blind_lift_opt {A} msg (o : option A) : stats_blind (lift_opt msg o).
Proof. destruct o; [apply blind_ret | apply blind_raise]. Qed.

Lemma blind_mapM {A B} (f : A -> M B) l :
  (forall x, stats_blind (f x)) -> stats_blind (mapM f l).
Proof.
  intro Hf; induction l as [|x l IH]; simpl.
  - apply blind_ret.
  - apply blind_bind; [apply Hf|]; intro; apply blind_bind; [exact IH|].
    intro; apply blind_ret.
Qed.

End Frame.

Create HintDb frame.
#[export] Hint Resolve Frame.keeps_ret Frame.keeps_raise Frame.keeps_add_documents
  Frame.keeps_lift Frame.keeps_lift_opt Frame.keeps_mapM
  Frame.blind_ret Frame.blind_raise Frame.blind_modify Frame.blind_lift
  Frame.blind_lift_opt Frame.blind_mapM : frame.

(** Break a method body into its monadic steps. *)
Ltac frame_step :=
  match goal with
  | |- Frame.keeps_counters (bind _ _) => apply Frame.keeps_bind; [|intro]
  | |- Frame.keeps_counters (try_except _ _) => apply Frame.keeps_try; [|intro]
  | |- Frame.stats_blind (bind _ _) => apply Frame.blind_bind; [|intro]
  | |- Frame.stats_blind (try_except _ _) => apply Frame.blind_try; [|intro]
  | |- Frame.keeps_counters (mapM _ _) => apply Frame.keeps_mapM; intro
  | |- Frame.stats_blind (mapM _ _) => apply Frame.blind_mapM; intro
  | |- Frame.keeps_counters (if ?b then _ else _) => destruct b
  | |- Frame.stats_blind (if ?b then _ else _) => destruct b
  | |- Frame.keeps_counters (match ?x with _ => _ end) => destruct x
  | |- Frame.stats_blind (match ?x with _ => _ end) => destruct x
  | |- _ => progress (unfold failure, csv_row_document in *)
  end.

Ltac frame_solve := repeat (frame_step || eauto with frame).

Section FrameProofs.
Variable disk : filesystem.
Variable decode_utf8 : string -> string + string.
Variable parse_json : string -> string + json.
Variable parse_csv : string -> string + DataFrame.
Variable parse_pdf : string -> string + PdfDoc.

Lemma ingest_file_keeps_counters p :
  Frame.keeps_counters (ingest_file disk decode_utf8 parse_json parse_csv parse_pdf p).
Proof.
  unfold ingest_file, ingest_text_file, ingest_csv_file, ingest_json_file,
    ingest_pdf_file.
  frame_solve.
Qed.

Lemma ingest_file_stats_blind p :
  Frame.stats_blind (ingest_file disk decode_utf8 parse_json parse_csv parse_pdf p).
Proof.
  unfold ingest_file, ingest_text_file, ingest_csv_file, ingest_json_file,
    ingest_pdf_file.
  frame_solve.
Qed.

End FrameProofs.

(** ** Batch ingestion and existence checks *)

(** C1: a directory holding one unsupported file ([scan.xyz]) and one
    text file ([notes.txt]): [ingest_file] reports the unsupported format
    through its return value and does not raise, so the loop counts both
    files as processed and no error: the stats are
    [files_processed = 2], [documents_ingested = 1], [errors = 0]. *)
Theorem ingest_directory_unsupported_counted_as_processed :
  Fixture.run_directory "/d" =
  (inr (mkStats 2 1 0), mkStats 2 1 0).
Proof. vm_compute. reflexivity. Qed.

(** C2, as stated: a missing directory is a fatal error of the call.  It
    is not: [ingest_directory] on a path absent from the disk raises
    nothing and returns the accumulator. *)
Lemma ingest_directory_missing_not_fatal :
  ~ (exists e, fst (Fixture.run_directory "/missing") = inl e).
Proof. vm_compute. intros [e H]; discriminate H. Qed.

(** C2, amended: when the directory path is absent or not a directory,
    [ingest_directory] catches its own [ValueError], processes no file and
    returns the accumulator unchanged (no error is signalled); when a file
    path does not exist, [ingest_file] raises [FileNotFoundError] before
    any extractor runs, with the accumulator unchanged; its message names
    the path as [str(Path(p))] prints it. *)
Theorem ingest_missing_paths :
  forall disk dec pj pc pp dir ext p s,
    (forall children, dict_get disk (path_str dir) <> Some (EDir children)) ->
    path_exists disk p = false ->
    ingest_directory disk dec pj pc pp dir ext s = (inr s, s) /\
    ingest_file disk dec pj pc pp p s =
      (inl (FileNotFoundError ("File not found: " ++ path_str p)), s).
Proof.
  intros disk dec pj pc pp dir ext p s Hdir Hp; split.
  - unfold ingest_directory, try_except.
    destruct (dict_get disk (path_str dir)) as [[b|ch]|] eqn:E; try reflexivity.
    exfalso; exact (Hdir ch eq_refl).
  - unfold ingest_file; rewrite Hp; reflexivity.
Qed.

Lemma ingest_missing_paths_witness :
  (forall children,
     dict_get Fixture.disk (path_str "/missing/") <> Some (EDir children)) /\
  path_exists Fixture.disk "./d/../absent.txt" = false /\
  ingest_directory Fixture.disk Fixture.utf8 Fixture.parse_json Fixture.parse_csv
    Fixture.parse_pdf "/missing/" None stats0 = (inr stats0, stats0) /\
  ingest_file Fixture.disk Fixture.utf8 Fixture.parse_json Fixture.parse_csv
    Fixture.parse_pdf "./d/../absent.txt" stats0 =
    (inl (FileNotFoundError "File not found: d/../absent.txt"), stats0).
Proof.
  assert (H1 : forall children,
             dict_get Fixture.disk (path_str "/missing/") <> Some (EDir children))
    by (intros ch; vm_compute; discriminate).
  assert (H2 : path_exists Fixture.disk "./d/../absent.txt" = false)
    by reflexivity.
  split; [exact H1|]; split; [exact H2|].
  exact (ingest_missing_paths Fixture.disk Fixture.utf8 Fixture.parse_json
           Fixture.parse_csv Fixture.parse_pdf "/missing/" None
           "./d/../absent.txt" stats0 H1 H2).
Defined.

(** C9: the outcome of [ingest_file] (the documents, their content and
    metadata) does not depend on the accumulator it is run with, so two
    runs on the same unchanged file give identical documents. *)
Theorem ingest_file_deterministic :
  forall disk dec pj pc pp p s1 s2,
    fst (ingest_file disk dec pj pc pp p s1) =
    fst (ingest_file disk dec pj pc pp p s2).
Proof.
  intros; apply ingest_file_stats_blind.
Qed.

(** C10: a standalone [ingest_file] never changes [files_processed] or
    [errors]; only the loop of [ingest_directory] touches them. *)
Theorem ingest_file_frame :
  forall disk dec pj pc pp p s,
    files_processed (snd (ingest_file disk dec pj pc pp p s)) = files_processed s /\
    errors (snd (ingest_file disk dec pj pc pp p s)) = errors s.
Proof.
  intros; apply ingest_file_keeps_counters.
Qed.

(** ** Dicts *)

Module Dict.

Lemma eqb_refl_str k : String.eqb k k = true.
Proof. apply String.eqb_refl. Qed.

Lemma get_app {V} (l1 l2 : dict V) k :
  dict_get (l1 ++ l2)%list k =
  match dict_get l1 k with Some v => Some v | None => dict_get l2 k end.
Proof.
  induction l1 as [|[k' v'] l1 IH]; simpl; [reflexivity|].
  destruct (String.eqb k k'); [reflexivity | exact IH].
Qed.

Lemma get_set {V} (d : dict V) k v k' :
  dict_get (dict_set d k v) k' =
  if String.eqb k' k then Some v else dict_get d k'.
Proof.
  induction d as [|[k0 v0] d IH]; simpl.
  - destruct (String.eqb k' k); reflexivity.
  - destruct (String.eqb_spec k k0) as [->|Hne]; simpl.
    + destruct (String.eqb k' k0); reflexivity.
    + rewrite IH.
      destruct (String.eqb_spec k' k) as [Heq|Hne']; simpl.
      * subst k'; apply String.eqb_neq in Hne; rewrite Hne; reflexivity.
      * reflexivity.
Qed.

(** After a sequence of assignments, a key holds the value of its last
    assignment, or its former value if it was never assigned. *)
Lemma get_set_all {V} (kvs : list (string * V)) (d : dict V) k :
  dict_get (dict_set_all d kvs) k =
  match dict_get (rev kvs) k with Some v => Some v | None => dict_get d k end.
Proof.
  revert d; induction kvs as [|[k0 v0] kvs IH]; intro d; simpl; [reflexivity|].
  unfold dict_set_all in *; simpl; rewrite IH, get_app; simpl.
  rewrite get_set.
  destruct (dict_get (rev kvs) k); [reflexivity|].
  destruct (String.eqb k k0); reflexivity.
Qed.

Lemma in_keys_set {V} (d : dict V) k v x :
  In x (map fst (dict_set d k v)) -> x = k \/ In x (map fst d).
Proof.
  induction d as [|[k0 v0] d IH]; simpl.
  - intros [H|[]]; left; symmetry; exact H.
  - destruct (String.eqb k k0); simpl; intros [H|H]; auto.
    destruct (IH H); auto.
Qed.

Lemma nodup_set {V} (d : dict V) k v :
  NoDup (map fst d) -> NoDup (map fst (dict_set d k v)).
Proof.
  induction d as [|[k0 v0] d IH]; simpl; intro Hd.
  - constructor; [intros []|constructor].
  - inversion Hd as [|? ? Hnin Hd']; subst.
    destruct (String.eqb_spec k k0) as [->|Hne]; simpl.
    + exact Hd.
    + constructor; [|exact (IH Hd')].
      intro Hin; destruct (in_keys_set d k v k0 Hin) as [->|H]; auto.
Qed.

Lemma nodup_set_all {V} (kvs : list (string * V)) (d : dict V) :
  NoDup (map fst d) -> NoDup (map fst (dict_set_all d kvs)).
Proof.
  revert d; induction kvs as [|kv kvs IH]; intros d Hd; simpl; [exact Hd|].
  apply IH, nodup_set, Hd.
Qed.

Lemma set_fresh {V} (d : dict V) k v :
  ~ In k (map fst d) -> dict_set d k v = (d ++ [(k, v)])%list.
Proof.
  induction d as [|[k0 v0] d IH]; simpl; intro Hn; [reflexivity|].
  destruct (String.eqb_spec k k0) as [->|Hne]; [exfalso; auto|].
  rewrite IH; auto.
Qed.

(** Assigning distinct fresh keys appends them in order. *)
Lemma set_all_fresh {V} (kvs : list (string * V)) (d : dict V) :
  NoDup (map fst (d ++ kvs)%list) -> dict_set_all d kvs = (d ++ kvs)%list.
Proof.
  revert d; induction kvs as [|[k v] kvs IH]; intros d Hnd; simpl.
  - rewrite app_nil_r; reflexivity.
  - unfold dict_set_all in *; simpl.
    rewrite set_fresh.
    + rewrite IH; [rewrite <- app_assoc; reflexivity|].
      rewrite <- app_assoc; exact Hnd.
    + rewrite map_app in Hnd; simpl in Hnd.
      intro Hin; apply NoDup_remove_2 in Hnd; apply Hnd, in_or_app; left; exact Hin.
Qed.

Lemma get_in {V} (d : dict V) k v :
  NoDup (map fst d) -> In (k, v) d -> dict_get d k = Some v.
Proof.
  induction d as [|[k0 v0] d IH]; simpl; [intros _ []|].
  intros Hnd [H|H]; inversion Hnd as [|? ? Hn Hnd']; subst.
  - inversion H; subst; rewrite String.eqb_refl; reflexivity.
  - destruct (String.eqb_spec k k0) as [->|Hne].
    + exfalso; apply Hn, (in_map fst _ _ H).
    + exact (IH Hnd' H).
Qed.

Lemma get_some_in {V} (d : dict V) k v :
  dict_get d k = Some v -> In (k, v) d.
Proof.
  induction d as [|[k0 v0] d IH]; simpl; [discriminate|].
  destruct (String.eqb_spec k k0) as [->|Hne]; intro H.
  - inversion H; subst; left; reflexivity.
  - right; exact (IH H).
Qed.

End Dict.

(** Reserved key lists have distinct keys. *)
Ltac nodup_keys := simpl; repeat constructor; simpl; intuition discriminate.

(** ** Results of a method *)

Module Returns.









End Returns.





Section MetadataProofs.
Variable disk : filesystem.
Variable decode_utf8 : string -> string + string.
Variable parse_json : string -> string + json.
Variable parse_csv : string -> string + DataFrame.
Variable parse_pdf : string -> string + PdfDoc.


End MetadataProofs.

(** ** Metadata keys *)




(** ** Python's [max] with a key *)

Module MaxBy.

Section Spec.
Context {A K : Type} (gt : K -> K -> bool) (key : A -> K) (L : list A).

(** On the candidates, [gt] is a strict weak order. *)
Hypothesis gt_neg_trans : forall x y z, In x L -> In y L -> In z L ->
  gt (key x) (key y) = true -> gt (key x) (key z) = true \/ gt (key z) (key y) = true.
Hypothesis gt_asym : forall x y, In x L -> In y L ->
  gt (key x) (key y) = true -> gt (key y) (key x) = false.

Lemma gt_irrefl x : In x L -> gt (key x) (key x) = false.
Proof.
  intro Hx; destruct (gt (key x) (key x)) eqn:E; [|reflexivity].
  rewrite <- E; apply gt_asym; assumption.
Qed.

(** The item returned is not smaller than any candidate and is strictly
    greater than every candidate before it. *)
Lemma py_max_by_spec : forall rest b, incl (b :: rest) L ->
  exists pre post,
    b :: rest = (pre ++ py_max_by gt key b rest :: post)%list /\
    (forall y, In y (b :: rest) -> gt (key y) (key (py_max_by gt key b rest)) = false) /\
    (forall y, In y pre -> gt (key (py_max_by gt key b rest)) (key y) = true).
Proof.
  induction rest as [|y0 rest IH]; intros b Hincl; simpl.
  - exists [], []; split; [reflexivity|split; [|intros _ []]].
    intros y [<-|[]]; apply gt_irrefl, Hincl; left; reflexivity.
  - assert (Hb : In b L) by (apply Hincl; left; reflexivity).
    assert (Hy0 : In y0 L) by (apply Hincl; right; left; reflexivity).
    destruct (gt (key y0) (key b)) eqn:Eyb.
    + destruct (IH y0) as (pre & post & Hdec & Hge & Hlt).
      { intros z Hz; apply Hincl; right; exact Hz. }
      set (x := py_max_by gt key y0 rest) in *.
      assert (Hx : In x L).
      { apply Hincl; right; rewrite Hdec; apply in_or_app; right; left; reflexivity. }
      assert (Hxb : gt (key x) (key b) = true).
      { destruct (gt_neg_trans y0 b x Hy0 Hb Hx Eyb) as [H|H]; [|exact H].
        rewrite Hge in H; [discriminate|left; reflexivity]. }
      exists (b :: pre), post; split; [rewrite Hdec; reflexivity|split].
      * intros y [<-|Hy]; [apply gt_asym; assumption|apply Hge, Hy].
      * intros y [<-|Hy]; [exact Hxb|apply Hlt, Hy].
    + destruct (IH b) as (pre & post & Hdec & Hge & Hlt).
      { intros z [<-|Hz]; [exact Hb|apply Hincl; right; right; exact Hz]. }
      set (x := py_max_by gt key b rest) in *.
      destruct pre as [|b' pre].
      * simpl in Hdec; injection Hdec as Hxb Hpost.
        exists [], (y0 :: rest); split; [rewrite <- Hxb; reflexivity|split; [|intros _ []]].
        intros y [<-|[<-|Hy]].
        -- rewrite <- Hxb; apply gt_irrefl; exact Hb.
        -- rewrite <- Hxb; exact Eyb.
        -- apply Hge; right; exact Hy.
      * simpl in Hdec; injection Hdec as Hbb Hrest; subst b'.
        assert (Hx : In x L).
        { apply Hincl; right; right; rewrite Hrest; apply in_or_app; right; left; reflexivity. }
        assert (Hxb : gt (key x) (key b) = true) by (apply Hlt; left; reflexivity).
        assert (Hxy : gt (key x) (key y0) = true).
        { destruct (gt_neg_trans x b y0 Hx Hb Hy0 Hxb) as [H|H]; [exact H|].
          rewrite Eyb in H; discriminate. }
        exists (b :: y0 :: pre), post; split; [rewrite Hrest; reflexivity|split].
        -- intros y [<-|[<-|Hy]].
           ++ apply Hge; left; reflexivity.
           ++ apply gt_asym; assumption.
           ++ apply Hge; right; exact Hy.
        -- intros y [<-|[<-|Hy]]; [exact Hxb|exact Hxy|apply Hlt; right; exact Hy].
Qed.

End Spec.

(** A list built by [flat_map] of at most singletons, split around one of
    its items, comes from a split of the source list. *)
Lemma flat_map_split {A B} (f : A -> list B) (l : list A) pre' x post' :
  (forall a, length (f a) <= 1) ->
  flat_map f l = (pre' ++ x :: post')%list ->
  exists pre a post, l = (pre ++ a :: post)%list /\ f a = [x] /\ flat_map f pre = pre'.
Proof.
  intro Hf; revert pre'; induction l as [|a l IH]; intros pre' H; simpl in H.
  - destruct pre'; discriminate.
  - specialize (Hf a) as Ha.
    destruct (f a) as [|b [|b' bs]] eqn:Efa; simpl in H, Ha.
    + destruct (IH pre' H) as (pre & a' & post & -> & Ha' & Hpre).
      exists (a :: pre), a', post; simpl; rewrite Efa; auto.
    + destruct pre' as [|c pre']; simpl in H; inversion H; subst.
      * exists [], a, l; auto.
      * destruct (IH pre' H2) as (pre & a' & post & -> & Ha' & Hpre).
        exists (a :: pre), a', post; simpl; rewrite Efa, Hpre; auto.
    + lia.
Qed.

End MaxBy.

(** ** The content locators *)

Module Locator.

Lemma first_str_field_none names item :
  (forall n, In n names -> forall s, dict_get item n <> Some (JStr s)) ->
  first_str_field names item = None.
Proof.
  induction names as [|n names IH]; simpl; intro H; [reflexivity|].
  destruct (dict_get item n) as [[]|] eqn:E; try (apply IH; intros; apply H; right; assumption).
  exfalso; exact (H n (or_introl eq_refl) s E).
Qed.

Lemma first_str_field_prefix pre name post item :
  (exists s, dict_get item name = Some (JStr s)) ->
  (forall n, In n pre -> forall s, dict_get item n <> Some (JStr s)) ->
  first_str_field (pre ++ name :: post)%list item = Some name.
Proof.
  intros [s Hs]; induction pre as [|n pre IH]; simpl; intro Hpre.
  - rewrite Hs; reflexivity.
  - destruct (dict_get item n) as [[]|] eqn:E;
      try (apply IH; intros; apply Hpre; right; assumption).
    exfalso; exact (Hpre n (or_introl eq_refl) s0 E).
Qed.

Lemma text_field_entry_cases kv :
  text_field_entry kv = [] \/
  exists s, snd kv = JStr s /\ 50 < String.length s /\
            text_field_entry kv = [(fst kv, String.length s)].
Proof.
  destruct kv as [k [| | | |s| |]]; unfold text_field_entry; simpl; auto.
  destruct (Nat.ltb_spec 50 (String.length s)); [right; exists s; auto|auto].
Qed.

Lemma in_text_fields k s item :
  In (k, JStr s) item -> 50 < String.length s ->
  In (k, String.length s) (flat_map text_field_entry item).
Proof.
  intros Hin Hlen; apply in_flat_map; exists (k, JStr s); split; [exact Hin|].
  unfold text_field_entry; simpl.
  destruct (Nat.ltb_spec 50 (String.length s)); [left; reflexivity|lia].
Qed.

Lemma text_fields_keys k item :
  In k (map fst (flat_map text_field_entry item)) -> In k (map fst item).
Proof.
  induction item as [|kv item IH]; simpl; [intros []|].
  rewrite map_app; intro H; apply in_app_or in H; destruct H as [H|H]; [|right; auto].
  destruct (text_field_entry_cases kv) as [E|(s & _ & _ & E)]; rewrite E in H;
    simpl in H; [destruct H|]; destruct H as [<-|[]]; left; reflexivity.
Qed.

Lemma text_fields_nodup item :
  NoDup (map fst item) -> NoDup (map fst (flat_map text_field_entry item)).
Proof.
  induction item as [|kv item IH]; simpl; intro Hnd; [constructor|].
  inversion Hnd as [|? ? Hn Hnd']; subst; rewrite map_app.
  destruct (text_field_entry_cases kv) as [E|(s & _ & _ & E)]; rewrite E; simpl.
  - exact (IH Hnd').
  - constructor; [|exact (IH Hnd')].
    intro H; apply Hn, text_fields_keys, H.
Qed.

Lemma json_text_fields_eq item :
  NoDup (map fst item) -> json_text_fields item = flat_map text_field_entry item.
Proof.
  intro Hnd; unfold json_text_fields; apply Dict.set_all_fresh; simpl.
  apply text_fields_nodup, Hnd.
Qed.

Lemma nat_gt_neg_trans (x y z : nat) :
  Nat.ltb y x = true -> Nat.ltb z x = true \/ Nat.ltb y z = true.
Proof.
  intro H; apply Nat.ltb_lt in H.
  destruct (Nat.lt_ge_cases z x); [left|right]; apply Nat.ltb_lt; lia.
Qed.

Lemma nat_gt_asym (x y : nat) : Nat.ltb y x = true -> Nat.ltb x y = false.
Proof. intro H; apply Nat.ltb_lt in H; apply Nat.ltb_ge; lia. Qed.

End Locator.

(** C6: the field-variant locator [_identify_json_content_field] on a
    dict (distinct keys): (1) the first name of the priority list whose
    value is a string wins; (2) otherwise, if some string field is longer
    than 50 characters, it returns the longest such field, the first one
    in item order among equally long ones; (3) otherwise it reports no
    content field, and the caller then emits no document for the object;
    (4) [{"id": 1, "note": "short"}] has no content field. *)
Theorem json_content_field_locator :
  forall item, NoDup (map fst item) ->
    (forall pre name post,
        content_field_names = (pre ++ name :: post)%list ->
        (exists s, dict_get item name = Some (JStr s)) ->
        (forall n, In n pre -> forall s, dict_get item n <> Some (JStr s)) ->
        identify_json_content_field item = Some name) /\
    ((forall n, In n content_field_names -> forall s, dict_get item n <> Some (JStr s)) ->
     (exists k s, In (k, JStr s) item /\ 50 < String.length s) ->
     exists pre k s post,
       item = (pre ++ (k, JStr s) :: post)%list /\ 50 < String.length s /\
       identify_json_content_field item = Some k /\
       (forall k' s', In (k', JStr s') item -> 50 < String.length s' ->
                      String.length s' <= String.length s) /\
       (forall k' s', In (k', JStr s') pre -> 50 < String.length s' ->
                      String.length s' < String.length s)) /\
    ((forall n, In n content_field_names -> forall s, dict_get item n <> Some (JStr s)) ->
     (forall k s, In (k, JStr s) item -> String.length s <= 50) ->
     identify_json_content_field item = None /\
     forall md0, json_record_document md0 item = []) /\
    identify_json_content_field [("id", JInt 1); ("note", JStr "short")] = None.
Proof.
  intros item Hnd; split; [|split; [|split]].
  - intros pre name post Hnames Hs Hpre; unfold identify_json_content_field.
    rewrite Hnames, (Locator.first_str_field_prefix pre name post item Hs Hpre).
    reflexivity.
  - intros Hnone (k0 & s0 & Hin0 & Hlen0).
    unfold identify_json_content_field.
    rewrite (Locator.first_str_field_none _ _ Hnone), (Locator.json_text_fields_eq _ Hnd).
    pose proof (Locator.in_text_fields _ _ _ Hin0 Hlen0) as Hin0'.
    destruct (flat_map text_field_entry item) as [|tf tfs] eqn:Etf; [destruct Hin0'|].
    destruct (MaxBy.py_max_by_spec (fun a b => Nat.ltb b a) snd (tf :: tfs)
                (fun x y z _ _ _ H => Locator.nat_gt_neg_trans _ _ _ H)
                (fun x y _ _ H => Locator.nat_gt_asym _ _ H)
                tfs tf (incl_refl _))
      as (pre' & post' & Hdec & Hge & Hlt).
    set (x := py_max_by (fun a b => Nat.ltb b a) snd tf tfs) in *.
    rewrite Hdec in Etf.
    destruct (MaxBy.flat_map_split text_field_entry item pre' x post')
      as (pre & a & post & Hitem & Ha & Hpre); [|exact Etf|].
    { intro kv; destruct (Locator.text_field_entry_cases kv) as [E|(s & _ & _ & E)];
        rewrite E; simpl; lia. }
    destruct (Locator.text_field_entry_cases a) as [E|(s & Hs & Hlen & E)];
      rewrite E in Ha; [discriminate|].
    injection Ha as Hx; destruct a as [k v]; simpl in *; subst v.
    exists pre, k, s, post; split; [exact Hitem|split; [exact Hlen|split; [|split]]].
    + rewrite <- Hx; reflexivity.
    + intros k' s' Hin' Hlen'.
      assert (Hin'' : In (k', String.length s') (tf :: tfs))
        by (rewrite Hdec, <- Etf; exact (Locator.in_text_fields _ _ _ Hin' Hlen')).
      pose proof (Hge _ Hin'') as H; rewrite <- Hx in H; simpl in H.
      apply Nat.ltb_ge in H; exact H.
    + intros k' s' Hin' Hlen'.
      assert (Hin'' : In (k', String.length s') pre')
        by (rewrite <- Hpre; exact (Locator.in_text_fields _ _ _ Hin' Hlen')).
      pose proof (Hlt _ Hin'') as H; rewrite <- Hx in H; simpl in H.
      apply Nat.ltb_lt in H; exact H.
  - intros Hnone Hshort.
    assert (Hid : identify_json_content_field item = None).
    { unfold identify_json_content_field.
      rewrite (Locator.first_str_field_none _ _ Hnone), (Locator.json_text_fields_eq _ Hnd).
      destruct (flat_map text_field_entry item) as [|[k n] tfs] eqn:Etf; [reflexivity|].
      exfalso.
      assert (Hin : In (k, n) (flat_map text_field_entry item))
        by (rewrite Etf; left; reflexivity).
      apply in_flat_map in Hin; destruct Hin as (kv & Hkv & Hin).
      destruct (Locator.text_field_entry_cases kv) as [E|(s & Hs & Hlen & E)];
        rewrite E in Hin; [destruct Hin|].
      destruct Hin as [Heq|[]]; destruct kv as [k' v]; simpl in *; subst v.
      specialize (Hshort k' s Hkv); lia. }
    split; [exact Hid|]; intro md0; unfold json_record_document; rewrite Hid; reflexivity.
  - reflexivity.
Qed.

Lemma json_content_field_locator_witness :
  NoDup (map fst [("id", JInt 1); ("note", JStr "short")]) /\
  identify_json_content_field [("id", JInt 1); ("note", JStr "short")] = None /\
  json_record_document (reserved "/e/c.json" "json")
    [("id", JInt 1); ("note", JStr "short")] = [].
Proof.
  assert (Hnd : NoDup (map fst [("id", JInt 1); ("note", JStr "short")]))
    by nodup_keys.
  assert (Hnone : forall n, In n content_field_names ->
            forall s, dict_get [("id", JInt 1); ("note", JStr "short")] n <> Some (JStr s))
    by (intros n Hn s; simpl in Hn;
        repeat (destruct Hn as [<-|Hn]; [vm_compute; discriminate|]); destruct Hn).
  assert (Hshort : forall k s, In (k, JStr s) [("id", JInt 1); ("note", JStr "short")] ->
            String.length s <= 50)
    by (intros k s [H|[H|[]]]; inversion H; simpl; lia).
  destruct (json_content_field_locator _ Hnd) as (_ & _ & H3 & _).
  destruct (H3 Hnone Hshort) as [Hid Hdoc].
  split; [exact Hnd|split; [exact Hid|apply Hdoc]].
Defined.

Module ColumnLocator.

Lemma existsb_name name cols :
  existsb (String.eqb name) cols = true <-> In name cols.
Proof.
  rewrite existsb_exists; split.
  - intros (x & Hx & E); apply String.eqb_eq in E; subst; exact Hx.
  - intro H; exists name; split; [exact H|apply String.eqb_refl].
Qed.

Lemma first_present_none names cols :
  (forall n, In n names -> ~ In n cols) -> first_present names cols = None.
Proof.
  induction names as [|n names IH]; simpl; intro H; [reflexivity|].
  destruct (existsb (String.eqb n) cols) eqn:E.
  - exfalso; apply existsb_name in E; exact (H n (or_introl eq_refl) E).
  - apply IH; intros; apply H; right; assumption.
Qed.

Lemma first_present_prefix pre name post cols :
  In name cols -> (forall n, In n pre -> ~ In n cols) ->
  first_present (pre ++ name :: post)%list cols = Some name.
Proof.
  intro Hin; induction pre as [|n pre IH]; simpl; intro Hpre.
  - apply existsb_name in Hin; rewrite Hin; reflexivity.
  - destruct (existsb (String.eqb n) cols) eqn:E.
    + exfalso; apply existsb_name in E; exact (Hpre n (or_introl eq_refl) E).
    + apply IH; intros; apply Hpre; right; assumption.
Qed.

Lemma nodup_names_filter (p : column -> bool) cols :
  NoDup (map col_name cols) -> NoDup (map col_name (filter p cols)).
Proof.
  induction cols as [|c cols IH]; simpl; intro H; [constructor|].
  inversion H as [|? ? Hn H']; subst.
  destruct (p c); simpl; [constructor|]; auto.
  intro Hin; apply Hn; apply in_map_iff in Hin; destruct Hin as (c' & <- & Hc').
  apply filter_In in Hc'; apply in_map, Hc'.
Qed.

(** The candidates of the length heuristic, in schema order. *)
Lemma avg_lengths_eq df :
  NoDup (df_names df) ->
  avg_lengths df =
  map (fun c => (col_name c, column_mean df c)) (filter col_is_object (df_columns df)).
Proof.
  intro Hnd; unfold avg_lengths; apply Dict.set_all_fresh; simpl.
  rewrite map_map; simpl; apply nodup_names_filter, Hnd.
Qed.

(** A mean is [NaN] exactly when the frame has no rows. *)
Lemma column_mean_nan df c : column_mean df c = None <-> df_rows df = [].
Proof.
  unfold column_mean, mean_str_len, df_column_cells.
  destruct (df_rows df); simpl; split; congruence.
Qed.

Lemma pyfloat_neg_trans a b c :
  (a = None <-> c = None) -> pyfloat_gt a b = true ->
  pyfloat_gt a c = true \/ pyfloat_gt c b = true.
Proof.
  intros Hac Hab; destruct a as [x|], b as [y|]; simpl in Hab; try discriminate.
  destruct c as [z|]; [|destruct Hac as [_ H]; discriminate (H eq_refl)].
  simpl; apply negb_true_iff, not_true_iff_false in Hab.
  rewrite Qle_bool_iff in Hab; apply Qnot_le_lt in Hab.
  destruct (Qlt_le_dec z x) as [Hzx|Hxz].
  - left; apply negb_true_iff, not_true_iff_false; rewrite Qle_bool_iff.
    apply Qlt_not_le, Hzx.
  - right; apply negb_true_iff, not_true_iff_false; rewrite Qle_bool_iff.
    apply Qlt_not_le, (Qlt_le_trans _ _ _ Hab Hxz).
Qed.

Lemma pyfloat_asym a b : pyfloat_gt a b = true -> pyfloat_gt b a = false.
Proof.
  destruct a as [x|], b as [y|]; simpl; try discriminate.
  intro H; apply negb_true_iff, not_true_iff_false in H.
  rewrite Qle_bool_iff in H; apply Qnot_le_lt, Qlt_le_weak in H.
  apply negb_false_iff, Qle_bool_iff, H.
Qed.

End ColumnLocator.

(** C7: the column-variant locator [_identify_content_column] on a frame
    with distinct, non-empty column names: (1) the first name of the
    priority list that is a column wins, wherever it sits in the schema;
    (2) otherwise, if some column has dtype [object], it returns such a
    column with the greatest mean string length, strictly greater than
    every text-like column before it (so ties go to the earliest);
    (3) otherwise it returns the first column; (4) a mean is [NaN] (no
    column compares greater) exactly when the frame has no rows. *)
Theorem content_column_locator :
  forall df, NoDup (df_names df) -> df_columns df <> [] ->
    (forall pre name post,
        content_field_names = (pre ++ name :: post)%list ->
        In name (df_names df) ->
        (forall n, In n pre -> ~ In n (df_names df)) ->
        identify_content_column df = Some name) /\
    ((forall n, In n content_field_names -> ~ In n (df_names df)) ->
     (exists c, In c (df_columns df) /\ col_is_object c = true) ->
     exists pre c post,
       filter col_is_object (df_columns df) = (pre ++ c :: post)%list /\
       identify_content_column df = Some (col_name c) /\
       (forall c', In c' (filter col_is_object (df_columns df)) ->
                   pyfloat_gt (column_mean df c') (column_mean df c) = false) /\
       (forall c', In c' pre ->
                   pyfloat_gt (column_mean df c) (column_mean df c') = true)) /\
    ((forall n, In n content_field_names -> ~ In n (df_names df)) ->
     (forall c, In c (df_columns df) -> col_is_object c = false) ->
     exists c rest, df_columns df = c :: rest /\
                    identify_content_column df = Some (col_name c)) /\
    (forall c, column_mean df c = None <-> df_rows df = []).
Proof.
  intros df Hnd Hne; split; [|split; [|split]].
  - intros pre name post Hnames Hin Hpre; unfold identify_content_column.
    rewrite Hnames, (ColumnLocator.first_present_prefix pre name post _ Hin Hpre).
    reflexivity.
  - intros Hnone (c0 & Hc0 & Hobj0).
    unfold identify_content_column.
    rewrite (ColumnLocator.first_present_none _ _ Hnone), (ColumnLocator.avg_lengths_eq _ Hnd).
    set (f := fun c => (col_name c, column_mean df c)).
    assert (Hc0' : In c0 (filter col_is_object (df_columns df)))
      by (apply filter_In; auto).
    destruct (map f (filter col_is_object (df_columns df))) as [|a rest] eqn:EL.
    { apply (in_map f) in Hc0'; rewrite EL in Hc0'; destruct Hc0'. }
    assert (Hkeys : forall x, In x (a :: rest) -> exists c, x = f c).
    { intros x Hx; rewrite <- EL in Hx; apply in_map_iff in Hx.
      destruct Hx as (c & <- & _); exists c; reflexivity. }
    assert (Hnan : forall x y, In x (a :: rest) -> In y (a :: rest) ->
                               (snd x = None <-> snd y = None)).
    { intros x y Hx Hy; destruct (Hkeys x Hx) as [cx ->], (Hkeys y Hy) as [cy ->].
      simpl; rewrite !ColumnLocator.column_mean_nan; reflexivity. }
    destruct (MaxBy.py_max_by_spec pyfloat_gt snd (a :: rest)
                (fun x y z Hx _ Hz H => ColumnLocator.pyfloat_neg_trans _ _ _ (Hnan x z Hx Hz) H)
                (fun x y _ _ H => ColumnLocator.pyfloat_asym _ _ H)
                rest a (incl_refl _))
      as (pre' & post' & Hdec & Hge & Hlt).
    set (x := py_max_by pyfloat_gt snd a rest) in *.
    rewrite <- EL in Hdec.
    destruct (map_eq_app _ _ _ _ Hdec) as (l1 & l2 & Hsplit & Hl1 & Hl2).
    apply map_eq_cons in Hl2; destruct Hl2 as (c & post & -> & Hfc & _).
    exists l1, c, post; split; [exact Hsplit|split; [|split]].
    + rewrite <- Hfc; reflexivity.
    + intros c' Hc'.
      assert (Hin : In (f c') (a :: rest)) by (rewrite <- EL; apply in_map, Hc').
      pose proof (Hge _ Hin) as H; rewrite <- Hfc in H; exact H.
    + intros c' Hc'.
      assert (Hin : In (f c') pre') by (rewrite <- Hl1; apply in_map, Hc').
      pose proof (Hlt _ Hin) as H; rewrite <- Hfc in H; exact H.
  - intros Hnone Hobj; unfold identify_content_column.
    rewrite (ColumnLocator.first_present_none _ _ Hnone), (ColumnLocator.avg_lengths_eq _ Hnd).
    assert (Hf : filter col_is_object (df_columns df) = []).
    { clear Hne Hnd Hnone; induction (df_columns df) as [|c cols IH]; simpl; [reflexivity|].
      rewrite (Hobj c (or_introl eq_refl)); apply IH; intros; apply Hobj; right; assumption. }
    rewrite Hf; simpl; unfold df_names.
    destruct (df_columns df) as [|c rest]; [exfalso; apply Hne; reflexivity|].
    exists c, rest; split; reflexivity.
  - intro c; apply ColumnLocator.column_mean_nan.
Qed.

Lemma content_column_locator_witness :
  NoDup (df_names (mkDataFrame [mkColumn "id" false; mkColumn "title" true;
                                mkColumn "description" true] [])) /\
  identify_content_column
    (mkDataFrame [mkColumn "description" true; mkColumn "id" false;
                  mkColumn "title" true] []) = Some "description" /\
  identify_content_column
    (mkDataFrame [mkColumn "id" false; mkColumn "title" true;
                  mkColumn "description" true] []) = Some "description".
Proof.
  assert (Hnd : NoDup (df_names (mkDataFrame [mkColumn "id" false; mkColumn "title" true;
                                mkColumn "description" true] []))) by nodup_keys.
  split; [exact Hnd|split; [reflexivity|]].
  apply (proj1 (content_column_locator _ Hnd ltac:(discriminate)) ["content"; "text"]
           "description" ["abstract"; "body"] eq_refl).
  - simpl; right; right; left; reflexivity.
  - intros n [<-|[<-|[]]]; simpl; intuition discriminate.
Defined.

(** ** Paginated documents *)

Module Pdf.

Lemma append_assoc (a b c : string) : (a ++ b) ++ c = a ++ (b ++ c).
Proof. induction a as [|ch a IH]; simpl; [reflexivity|rewrite IH; reflexivity]. Qed.

Lemma append_empty_r (a : string) : a ++ "" = a.
Proof. induction a as [|ch a IH]; simpl; [reflexivity|rewrite IH; reflexivity]. Qed.

Lemma concat_cons (x : string) l : String.concat "" (x :: l) = x ++ String.concat "" l.
Proof. destruct l; simpl; [rewrite append_empty_r|]; reflexivity. Qed.

Lemma content_loop_spec pages : forall k acc,
  pdf_content_loop k pages acc =
  acc ++ String.concat ""
           (map (fun nt => page_block (fst nt) (snd nt))
                (filter (fun nt => negb (String.eqb (snd nt) ""))
                        (combine (seq (S k) (length pages)) pages))).
Proof.
  induction pages as [|t pages IH]; intros k acc.
  - simpl; rewrite append_empty_r; reflexivity.
  - cbn [pdf_content_loop length seq combine]; rewrite IH, Nat.add_1_r.
    cbn [filter snd]; destruct (String.eqb t ""); cbn [negb map fst snd];
      [reflexivity|].
    rewrite concat_cons, append_assoc; reflexivity.
Qed.

Lemma content_spec pages : pdf_content pages = pdf_content_spec pages.
Proof. unfold pdf_content, pdf_content_spec; rewrite content_loop_spec; reflexivity. Qed.

Lemma content_all_empty pages :
  (forall t, In t pages -> t = "") -> pdf_content_spec pages = "".
Proof.
  intro H; unfold pdf_content_spec.
  generalize 1; induction pages as [|t pages IH]; intro k; simpl; [reflexivity|].
  rewrite (H t (or_introl eq_refl)); simpl.
  apply IH; intros; apply H; right; assumption.
Qed.

Lemma extra_keys info k v :
  In (k, v) (pdf_extra info) ->
  exists key s, In (key, JStr s) info /\ key <> "" /\ s <> "" /\
                k = str_lower (clean_key key) /\ v = JStr s.
Proof.
  induction info as [|[key j] info IH]; simpl; [intros []|].
  intro H; apply in_app_or in H; destruct H as [H|H].
  - destruct j; try destruct H.
    destruct (String.eqb_spec key "") as [Hk|Hk]; simpl in H; [destruct H|].
    destruct (String.eqb_spec s "") as [Hs|Hs]; simpl in H; [destruct H|].
    destruct H as [H|[]]; injection H as <- <-.
    exists key, s; repeat split; auto.
  - destruct (IH H) as (key' & s' & ? & ? & ? & ? & ?).
    exists key', s'; repeat split; auto.
Qed.

End Pdf.

(** C8, as stated: [num_pages] always equals the page count.  It does
    not: the info entry [/Num_Pages = "99"] of the one-page [v.pdf] is
    written after it, under the cleaned key [num_pages]. *)
Lemma pdf_info_overrides_num_pages :
  exists d,
    outcome_documents (fst (Fixture.run_file "/e/v.pdf")) = [d] /\
    dict_get (metadata d) "num_pages" = Some (JStr "99") /\
    dict_get (metadata d) "num_pages" <> Some (JInt 1).
Proof.
  vm_compute; eexists; split; [reflexivity|]; split; [reflexivity|discriminate].
Qed.

(** C8, amended: a readable PDF is ingested as exactly one document
    ([documents_ingested] grows by one); its content is, in page order,
    ["--- Page N ---\n" ^ text ^ "\n\n"] for every non-empty page N
    (numbered from 1), so it is empty when every page is empty; its
    [num_pages] is the page count unless the info dict has a non-empty
    string entry whose key, stripped of ['/'] and lower-cased, is
    [num_pages]: then it holds the string of the last such entry. *)
Theorem pdf_single_document :
  forall disk dec pj pc pp p doc s,
    path_exists disk p = true ->
    str_lower (path_suffix p) = ".pdf" ->
    pdf_reader disk pp p = inr doc ->
    exists d,
      ingest_file disk dec pj pc pp p s = (inr (ROneDoc d), add_documents 1 s) /\
      content d = pdf_content_spec (pdf_pages doc) /\
      ((forall t, In t (pdf_pages doc) -> t = "") -> content d = "") /\
      ((forall info key v, pdf_metadata doc = Some info ->
                           In (key, JStr v) info -> key <> "" -> v <> "" ->
                           str_lower (clean_key key) <> "num_pages") ->
       dict_get (metadata d) "num_pages" =
       Some (JInt (Z.of_nat (length (pdf_pages doc))))) /\
      (forall info pre key v post,
         pdf_metadata doc = Some info ->
         info = (pre ++ (key, JStr v) :: post)%list ->
         key <> "" -> v <> "" -> str_lower (clean_key key) = "num_pages" ->
         (forall key' v', In (key', JStr v') post -> key' <> "" -> v' <> "" ->
                          str_lower (clean_key key') <> "num_pages") ->
         dict_get (metadata d) "num_pages" = Some (JStr v)).
Proof.
  intros disk dec pj pc pp p doc s Hex Hsfx Hread.
  unfold ingest_file; rewrite Hex, Hsfx; simpl.
  unfold ingest_pdf_file, try_except, bind, lift; rewrite Hread; simpl.
  eexists; split; [reflexivity|].
  simpl; rewrite Pdf.content_spec; split; [reflexivity|split; [|split]].
  - apply Pdf.content_all_empty.
  - intro Hkeys; unfold pdf_document_metadata; rewrite Dict.get_set_all.
    destruct (dict_get (rev (match pdf_metadata doc with
                             | Some info => pdf_extra info | None => [] end))
                       "num_pages") as [v|] eqn:E; [|reflexivity].
    exfalso; apply Dict.get_some_in, in_rev in E.
    destruct (pdf_metadata doc) as [info|] eqn:Em; [|destruct E].
    destruct (Pdf.extra_keys info _ _ E) as (key & s' & Hin & Hk & Hs & Hck & _).
    exact (Hkeys info key s' eq_refl Hin Hk Hs (eq_sym Hck)).
  - intros info pre key v post Hm Hinfo Hk Hv Hck Hpost.
    unfold pdf_document_metadata; rewrite Dict.get_set_all, Hm, Hinfo.
    assert (E1 : pdf_extra ((key, JStr v) :: post) =
                 ("num_pages", JStr v) :: pdf_extra post).
    { unfold pdf_extra; simpl.
      apply String.eqb_neq in Hk, Hv; rewrite Hk, Hv; simpl; rewrite Hck.
      reflexivity. }
    assert (E2 : dict_get (rev (pdf_extra post)) "num_pages" = None).
    { destruct (dict_get (rev (pdf_extra post)) "num_pages") as [w|] eqn:E;
        [|reflexivity].
      exfalso; apply Dict.get_some_in, in_rev in E.
      destruct (Pdf.extra_keys post _ _ E) as (key' & s' & Hin & Hk' & Hs & Hck' & _).
      exact (Hpost key' s' Hin Hk' Hs (eq_sym Hck')). }
    unfold pdf_extra at 1; rewrite flat_map_app; fold (pdf_extra pre).
    fold (pdf_extra ((key, JStr v) :: post)); rewrite E1.
    rewrite rev_app_distr; simpl rev.
    rewrite !Dict.get_app, E2; reflexivity.
Qed.

Lemma pdf_single_document_witness :
  path_exists Fixture.disk "/e/r.pdf" = true /\
  str_lower (path_suffix "/e/r.pdf") = ".pdf" /\
  pdf_reader Fixture.disk Fixture.parse_pdf "/e/r.pdf" =
    inr (mkPdfDoc ["Intro"; ""; "End"] (Some [("/Title", JStr "Guide")])) /\
  (exists d,
    Fixture.run_file "/e/r.pdf" = (inr (ROneDoc d), add_documents 1 stats0) /\
    content d = pdf_content_spec ["Intro"; ""; "End"]) /\
  (exists d,
    Fixture.run_file "/e/v.pdf" = (inr (ROneDoc d), add_documents 1 stats0) /\
    dict_get (metadata d) "num_pages" = Some (JStr "99")).
Proof.
  assert (H1 : path_exists Fixture.disk "/e/r.pdf" = true) by reflexivity.
  assert (H2 : str_lower (path_suffix "/e/r.pdf") = ".pdf") by reflexivity.
  assert (H3 : pdf_reader Fixture.disk Fixture.parse_pdf "/e/r.pdf" =
               inr (mkPdfDoc ["Intro"; ""; "End"] (Some [("/Title", JStr "Guide")])))
    by reflexivity.
  split; [exact H1|split; [exact H2|split; [exact H3|]]].
  destruct (pdf_single_document Fixture.disk Fixture.utf8 Fixture.parse_json
              Fixture.parse_csv Fixture.parse_pdf "/e/r.pdf" _ stats0 H1 H2 H3)
    as (d & Hrun & Hc & _).
  split; [exists d; split; [exact Hrun|exact Hc]|].
  assert (H4 : path_exists Fixture.disk "/e/v.pdf" = true) by reflexivity.
  assert (H5 : str_lower (path_suffix "/e/v.pdf") = ".pdf") by reflexivity.
  assert (H6 : pdf_reader Fixture.disk Fixture.parse_pdf "/e/v.pdf" =
               inr (mkPdfDoc ["Text"] (Some [("/Num_Pages", JStr "99")])))
    by reflexivity.
  destruct (pdf_single_document Fixture.disk Fixture.utf8 Fixture.parse_json
              Fixture.parse_csv Fixture.parse_pdf "/e/v.pdf" _ stats0 H4 H5 H6)
    as (d' & Hrun' & _ & _ & _ & Hover).
  exists d'; split; [exact Hrun'|].
  apply (Hover _ [] "/Num_Pages" "99" [] eq_refl eq_refl);
    [discriminate | discriminate | reflexivity | intros ? ? []].
Defined.

(** ** Tabular files *)

Module Csv.

Lemma bind_step {A B} (m : M A) (k : A -> M B) s a s' :
  m s = (inr a, s') -> bind m k s = k a s'.
Proof. intro H; unfold bind; rewrite H; reflexivity. Qed.

Lemma try_step {A} (m : M A) h s a s' :
  m s = (inr a, s') -> try_except m h s = (inr a, s').
Proof. intro H; unfold try_except; rewrite H; reflexivity. Qed.

Lemma mapM_pure {A B} (f : A -> M B) (h : A -> B) l :
  (forall x s, In x l -> f x s = (inr (h x), s)) ->
  forall s, mapM f l s = (inr (map h l), s).
Proof.
  induction l as [|x l IH]; intros Hf s; simpl; [reflexivity|].
  rewrite (bind_step _ _ s (h x) s (Hf x s (or_introl eq_refl))).
  rewrite (bind_step _ _ s (map h l) s); [reflexivity|].
  apply IH; intros; apply Hf; right; assumption.
Qed.

Lemma py_max_by_in {A K} (gt : K -> K -> bool) (key : A -> K) rest : forall b,
  In (py_max_by gt key b rest) (b :: rest).
Proof.
  induction rest as [|y rest IH]; intro b; simpl; [left; reflexivity|].
  destruct (gt (key y) (key b)).
  - right; apply IH.
  - destruct (IH b) as [H|H]; [left; exact H|right; right; exact H].
Qed.

(** The resolved content column is a column of the frame. *)
Lemma content_column_in df :
  df_wf df ->
  exists tc, identify_content_column df = Some tc /\ In tc (df_names df).
Proof.
  intros (Hne & Hnd & _); unfold identify_content_column.
  destruct (first_present content_field_names (df_names df)) as [name|] eqn:E.
  - exists name; split; [reflexivity|].
    revert E; generalize content_field_names; intro names.
    induction names as [|n names IH]; simpl; [discriminate|].
    destruct (existsb (String.eqb n) (df_names df)) eqn:Ee; [|exact IH].
    intro H; injection H as <-; apply ColumnLocator.existsb_name, Ee.
  - rewrite (ColumnLocator.avg_lengths_eq _ Hnd).
    destruct (map (fun c => (col_name c, column_mean df c))
                  (filter col_is_object (df_columns df))) as [|a rest] eqn:EL.
    + unfold df_names; destruct (df_columns df) as [|c cols]; [exfalso; auto|].
      exists (col_name c); split; [reflexivity|left; reflexivity].
    + eexists; split; [reflexivity|].
      pose proof (py_max_by_in pyfloat_gt snd rest a) as H; rewrite <- EL in H.
      apply in_map_iff in H; destruct H as (c & <- & Hc).
      apply filter_In in Hc; simpl; unfold df_names; apply in_map, Hc.
Qed.

Lemma index_of_in x l : In x l -> exists i, index_of x l = Some i /\ i < length l.
Proof.
  induction l as [|y l IH]; simpl; [intros []|].
  destruct (String.eqb_spec x y) as [->|Hne]; intro H.
  - exists 0; split; [reflexivity|lia].
  - destruct H as [H|H]; [congruence|].
    destruct (IH H) as (i & Hi & Hlt); exists (S i); rewrite Hi; split; [reflexivity|lia].
Qed.

Lemma index_of_some x l i : index_of x l = Some i -> In x l.
Proof.
  revert i; induction l as [|y l IH]; simpl; intro i; [discriminate|].
  destruct (String.eqb_spec x y) as [->|Hne]; [left; reflexivity|].
  destruct (index_of x l) as [j|] eqn:E; simpl; [|discriminate].
  intros _; right; exact (IH j eq_refl).
Qed.

Lemma row_get_in df row k c : row_get df row k = Some c -> In k (df_names df).
Proof.
  unfold row_get; destruct (index_of k (df_names df)) eqn:E; [|discriminate].
  intros _; exact (index_of_some _ _ _ E).
Qed.

Lemma row_get_aligned df row k :
  In k (df_names df) -> length row = length (df_columns df) ->
  exists c, row_get df row k = Some c.
Proof.
  intros Hin Hlen; destruct (index_of_in _ _ Hin) as (i & Hi & Hlt).
  unfold row_get; rewrite Hi.
  destruct (nth_error row i) as [c|] eqn:E; [exists c; reflexivity|].
  apply nth_error_None in E; unfold df_names in Hlt; rewrite length_map in Hlt; lia.
Qed.

Lemma get_rev_nodup {V} (l : dict V) k :
  NoDup (map fst l) -> dict_get (rev l) k = dict_get l k.
Proof.
  intro Hnd.
  assert (Hnd' : NoDup (map fst (rev l))) by (rewrite map_rev; apply NoDup_rev, Hnd).
  destruct (dict_get l k) as [v|] eqn:E.
  - apply Dict.get_in; [exact Hnd'|]; apply (proj1 (in_rev l _)), Dict.get_some_in, E.
  - destruct (dict_get (rev l) k) as [v|] eqn:E'; [|reflexivity].
    apply Dict.get_some_in, (proj2 (in_rev l _)) in E'.
    rewrite (Dict.get_in _ _ _ Hnd E') in E; discriminate.
Qed.

(** The column entries of one row. *)
Lemma get_extra df tc row : forall ns k,
  NoDup ns ->
  dict_get (flat_map (fun col =>
              if String.eqb col tc then []
              else match row_get df row col with
                   | Some (CVal s) => [(col, JStr s)]
                   | _ => []
                   end) ns) k =
  if existsb (String.eqb k) ns && negb (String.eqb k tc)
  then match row_get df row k with Some (CVal v) => Some (JStr v) | _ => None end
  else None.
Proof.
  induction ns as [|n ns IH]; intros k Hnd; simpl; [reflexivity|].
  inversion Hnd as [|? ? Hn Hnd']; subst.
  rewrite Dict.get_app, IH by exact Hnd'.
  assert (Hout : existsb (String.eqb n) ns = false).
  { destruct (existsb (String.eqb n) ns) eqn:E; [|reflexivity].
    exfalso; apply Hn, ColumnLocator.existsb_name, E. }
  destruct (String.eqb_spec k n) as [->|Hkn]; simpl.
  - rewrite Hout; simpl.
    destruct (String.eqb n tc); simpl; [reflexivity|].
    destruct (row_get df row n) as [[|v]|]; simpl; try rewrite String.eqb_refl; reflexivity.
  - destruct (String.eqb n tc);
      [|destruct (row_get df row n) as [[|v]|]; simpl;
        try (apply String.eqb_neq in Hkn; rewrite Hkn)]; reflexivity.
Qed.

Lemma extra_nodup df tc row :
  NoDup (df_names df) -> NoDup (map fst (csv_extra df tc row)).
Proof.
  unfold csv_extra; generalize (df_names df); intro ns.
  induction ns as [|n ns IH]; simpl; intro Hnd; [constructor|].
  inversion Hnd as [|? ? Hn Hnd']; subst.
  destruct (String.eqb n tc); [exact (IH Hnd')|].
  destruct (row_get df row n) as [[|v]|]; simpl; try exact (IH Hnd').
  constructor; [|exact (IH Hnd')].
  intro Hin; apply Hn; apply in_map_iff in Hin; destruct Hin as ([k' v'] & <- & Hin).
  apply in_flat_map in Hin; destruct Hin as (n' & Hn' & Hin).
  destruct (String.eqb n' tc); [destruct Hin|].
  destruct (row_get df row n') as [[|v'']|]; simpl in Hin;
    [destruct Hin| |destruct Hin].
  destruct Hin as [H|[]]; injection H as <- _; exact Hn'.
Qed.

(** The metadata of one row, key by key. *)
Lemma row_metadata_get p df tc row k :
  NoDup (df_names df) ->
  dict_get (csv_row_metadata p df tc row) k =
  if String.eqb k tc then dict_get (reserved p "csv") k
  else match row_get df row k with
       | Some (CVal v) => Some (JStr v)
       | _ => dict_get (reserved p "csv") k
       end.
Proof.
  intro Hnd; unfold csv_row_metadata; rewrite Dict.get_set_all.
  rewrite get_rev_nodup by (apply extra_nodup, Hnd).
  unfold csv_extra; rewrite (get_extra df tc row _ k Hnd).
  destruct (String.eqb_spec k tc) as [->|Hne].
  - rewrite andb_false_r; reflexivity.
  - rewrite andb_true_r.
    destruct (existsb (String.eqb k) (df_names df)) eqn:E.
    + destruct (row_get df row k) as [[|v]|]; reflexivity.
    + destruct (row_get df row k) as [c|] eqn:Er; [|reflexivity].
      apply row_get_in, ColumnLocator.existsb_name in Er; congruence.
Qed.

Lemma row_metadata_nodup p df tc row :
  NoDup (map fst (csv_row_metadata p df tc row)).
Proof. unfold csv_row_metadata; apply Dict.nodup_set_all; nodup_keys. Qed.

Lemma forall2_map {A B} (R : A -> B -> Prop) (h : A -> B) l :
  Forall (fun x => R x (h x)) l -> Forall2 R l (map h l).
Proof. induction 1; constructor; assumption. Qed.

End Csv.

(** C4, counterexample: in the table [t.csv] no column has a preferred
    name and the only [object] column is [source], so [source] is the
    content column; the metadata of its one document still has the key
    [source], holding the reserved value written before the columns. *)
Lemma csv_content_column_named_source :
  exists df d,
    Fixture.parse_csv "C1" = inr df /\
    identify_content_column df = Some "source" /\
    outcome_documents (fst (Fixture.run_file "/e/t.csv")) = [d] /\
    content d = "hello" /\
    dict_get (metadata d) "source" = Some (JStr "t.csv").
Proof.
  vm_compute; do 2 eexists; split; [reflexivity|]; split; [reflexivity|].
  split; [reflexivity|]; split; reflexivity.
Qed.

(** C4, amended: a CSV file that exists and parses to a well-formed
    frame (at least one column, distinct column names, every row as long
    as the header) is ingested as one document per row, in row order, and
    the document count grows by the number of rows (no rows: no
    documents, still a success).  The content of a row's document is the
    string form of its cell in the content column; its metadata has
    distinct keys, and key [k] holds: for the content column, only the
    reserved value if [k] is [source] or [file_type] (the content column
    is never copied into the metadata); for another column with a
    non-null cell, that cell as a string, overriding a reserved key of the
    same name; otherwise the reserved value [source] = file name,
    [file_type] = ["csv"], or nothing. *)
Theorem csv_rows_to_documents :
  forall disk dec pj pc pp p df s,
    path_exists disk p = true ->
    str_lower (path_suffix p) = ".csv" ->
    read_csv disk pc p = inr df ->
    df_wf df ->
    exists tc docs,
      identify_content_column df = Some tc /\
      ingest_file disk dec pj pc pp p s =
        (inr (RDocs docs), add_documents (length (df_rows df)) s) /\
      length docs = length (df_rows df) /\
      Forall2 (fun row d =>
                 (exists c, row_get df row tc = Some c /\ content d = cell_str c) /\
                 NoDup (map fst (metadata d)) /\
                 forall k,
                   dict_get (metadata d) k =
                   if String.eqb k tc then dict_get (reserved p "csv") k
                   else match row_get df row k with
                        | Some (CVal v) => Some (JStr v)
                        | _ => dict_get (reserved p "csv") k
                        end)
              (df_rows df) docs.
Proof.
  intros disk dec pj pc pp p df s Hex Hsfx Hread Hwf.
  destruct (Csv.content_column_in df Hwf) as (tc & Htc & Hin).
  destruct Hwf as (_ & Hnd & Hrows).
  set (h := fun row => mkDoc (cell_str (match row_get df row tc with
                                        | Some c => c | None => CNull end))
                             (csv_row_metadata p df tc row)).
  assert (Hcell : forall row, In row (df_rows df) ->
                  exists c, row_get df row tc = Some c).
  { intros row Hr; apply Csv.row_get_aligned; [exact Hin|].
    rewrite Forall_forall in Hrows; exact (Hrows row Hr). }
  assert (Hmap : forall s', mapM (csv_row_document p df tc) (df_rows df) s' =
                            (inr (map h (df_rows df)), s')).
  { apply Csv.mapM_pure; intros row s' Hr.
    destruct (Hcell row Hr) as (c & Hc).
    unfold csv_row_document, h, bind, lift_opt; rewrite Hc; reflexivity. }
  exists tc, (map h (df_rows df)); split; [exact Htc|split; [|split]].
  - unfold ingest_file; rewrite Hex, Hsfx; simpl.
    unfold ingest_csv_file; apply Csv.try_step.
    rewrite (Csv.bind_step _ _ s df s) by (unfold lift; rewrite Hread; reflexivity).
    rewrite (Csv.bind_step _ _ s tc s) by (unfold lift_opt; rewrite Htc; reflexivity).
    rewrite (Csv.bind_step _ _ s _ s (Hmap s)).
    rewrite length_map; reflexivity.
  - apply length_map.
  - apply Csv.forall2_map, Forall_forall; intros row Hr.
    split; [|split].
    + destruct (Hcell row Hr) as (c & Hc); exists c; split; [exact Hc|].
      unfold h; simpl; rewrite Hc; reflexivity.
    + apply Csv.row_metadata_nodup.
    + intro k; apply Csv.row_metadata_get, Hnd.
Qed.

Lemma csv_rows_to_documents_witness :
  exists docs,
    Fixture.run_file "/e/u.CSV" = (inr (RDocs docs), add_documents 2 stats0) /\
    map content docs = ["nan"; "Longer description text"].
Proof.
  assert (H1 : path_exists Fixture.disk "/e/u.CSV" = true) by reflexivity.
  assert (H2 : str_lower (path_suffix "/e/u.CSV") = ".csv") by reflexivity.
  assert (H3 : read_csv Fixture.disk Fixture.parse_csv "/e/u.CSV" =
               inr (mkDataFrame [mkColumn "id" false; mkColumn "title" true;
                                 mkColumn "description" true]
                                [[CVal "1"; CVal "A title"; CNull];
                                 [CNull; CVal "B"; CVal "Longer description text"]]))
    by reflexivity.
  assert (H4 : df_wf (mkDataFrame [mkColumn "id" false; mkColumn "title" true;
                                   mkColumn "description" true]
                                  [[CVal "1"; CVal "A title"; CNull];
                                   [CNull; CVal "B"; CVal "Longer description text"]])).
  { split; [discriminate|split]; [nodup_keys|repeat constructor]. }
  destruct (csv_rows_to_documents Fixture.disk Fixture.utf8 Fixture.parse_json
              Fixture.parse_csv Fixture.parse_pdf "/e/u.CSV" _ stats0 H1 H2 H3 H4)
    as (tc & docs & Htc & Hrun & _ & _).
  exists docs; split; [exact Hrun|].
  unfold Fixture.run_file in Hrun; vm_compute in Hrun.
  injection Hrun as <-; reflexivity.
Defined.

(** ** Mapping-shaped JSON files *)

Module Json.

Lemma first_str_field_some names item f :
  first_str_field names item = Some f -> exists c, dict_get item f = Some (JStr c).
Proof.
  induction names as [|n names IH]; simpl; [discriminate|].
  destruct (dict_get item n) as [[]|] eqn:E; try exact IH.
  intro H; injection H as <-; eexists; exact E.
Qed.

Lemma in_text_fields_inv k n item :
  In (k, n) (flat_map text_field_entry item) -> exists c, In (k, JStr c) item.
Proof.
  intro H; apply in_flat_map in H; destruct H as (kv & Hkv & H).
  destruct (Locator.text_field_entry_cases kv) as [E|(c & Ec & _ & E)];
    rewrite E in H; [destruct H|].
  destruct H as [H|[]]; injection H as <- _.
  exists c; destruct kv as [k0 v0]; simpl in Ec |- *; subst; exact Hkv.
Qed.

(** The located field exists and holds a string. *)
Lemma identify_some item f :
  NoDup (map fst item) -> identify_json_content_field item = Some f ->
  exists c, dict_get item f = Some (JStr c).
Proof.
  intro Hnd; unfold identify_json_content_field.
  destruct (first_str_field content_field_names item) as [name|] eqn:E.
  - intro H; injection H as <-; exact (first_str_field_some _ _ _ E).
  - rewrite (Locator.json_text_fields_eq _ Hnd).
    destruct (flat_map text_field_entry item) as [|tf tfs] eqn:Etf; [discriminate|].
    intro H; injection H as <-.
    pose proof (Csv.py_max_by_in (fun a b => Nat.ltb b a) snd tfs tf) as Hin.
    destruct (py_max_by (fun a b => Nat.ltb b a) snd tf tfs) as [k n]; simpl.
    rewrite <- Etf in Hin; destruct (in_text_fields_inv _ _ _ Hin) as (c & Hc).
    exists c; apply Dict.get_in; assumption.
Qed.

Lemma nodup_filter {V} (P : string * V -> bool) (l : dict V) :
  NoDup (map fst l) -> NoDup (map fst (filter P l)).
Proof.
  induction l as [|kv l IH]; simpl; intro Hnd; [constructor|].
  inversion Hnd as [|? ? Hn Hnd']; subst.
  destruct (P kv); simpl; [|exact (IH Hnd')].
  constructor; [|exact (IH Hnd')].
  intro H; apply Hn; apply in_map_iff in H; destruct H as (kv' & <- & H).
  apply filter_In in H; apply in_map, H.
Qed.

(** One nested record of a mapping. *)
Lemma record_document_shape md0 o :
  NoDup (map fst o) -> ~ In "" (map fst o) ->
  match identify_json_content_field o with
  | None => json_record_document md0 o = []
  | Some f =>
      exists c, dict_get o f = Some (JStr c) /\
        json_record_document md0 o = [mkDoc c (dict_set_all md0 (json_extra o f))]
  end.
Proof.
  intros Hnd Hne; unfold json_record_document.
  destruct (identify_json_content_field o) as [f|] eqn:Ef; [|reflexivity].
  destruct (identify_some _ _ Hnd Ef) as (c & Hc).
  exists c; split; [exact Hc|].
  destruct (String.eqb_spec f "") as [->|_].
  - exfalso; apply Hne, in_map_iff; exists ("", JStr c); split;
      [reflexivity|apply Dict.get_some_in, Hc].
  - rewrite Hc; reflexivity.
Qed.

Lemma dict_documents_shape p kvs :
  (forall key o, In (key, JObj o) kvs -> NoDup (map fst o) /\ ~ In "" (map fst o)) ->
  Forall2 (json_key_document p) (filter json_key_yields_document kvs)
          (json_dict_documents p kvs).
Proof.
  induction kvs as [|[key v] kvs IH]; intro Hnest; [constructor|].
  assert (IH' := IH (fun key' o H => Hnest key' o (or_intror H))).
  unfold json_dict_documents in *; cbn [flat_map filter].
  unfold json_key_yields_document at 1; cbn [snd].
  destruct v as [| | | |str| |o]; cbn [app]; try exact IH'.
  - destruct (Nat.ltb 100 (String.length str)); simpl; [|exact IH'].
    constructor; [|exact IH']; split; reflexivity.
  - destruct (Hnest key o (or_introl eq_refl)) as [Hnd Hne].
    pose proof (record_document_shape
                  (reserved p "json" ++ [("document_id", JStr key)])%list o Hnd Hne)
      as Hsh.
    destruct (identify_json_content_field o) as [f|] eqn:Ef.
    + destruct Hsh as (c & Hc & ->); simpl; constructor; [|exact IH'].
      exists f; split; [exact Ef|split; [exact Hc|]].
      intro k; simpl; rewrite Dict.get_set_all, Csv.get_rev_nodup
        by (apply nodup_filter, Hnd); reflexivity.
    + rewrite Hsh; exact IH'.
Qed.

Lemma forall2_nil_iff {A B} (R : A -> B -> Prop) l1 l2 :
  Forall2 R l1 l2 -> (l2 = [] <-> l1 = []).
Proof. intros [|x y l1' l2' _ _]; split; intro E; congruence. Qed.

Lemma filter_nil_iff {A} (P : A -> bool) l :
  filter P l = [] <-> forall x, In x l -> P x = false.
Proof.
  induction l as [|x l IH]; simpl; [split; [intros _ _ []|reflexivity]|].
  destruct (P x) eqn:E; split.
  - discriminate.
  - intro H; rewrite (H x (or_introl eq_refl)) in E; discriminate.
  - intros H y [<-|Hy]; [exact E|apply IH; assumption].
  - intro H; apply IH; intros; apply H; right; assumption.
Qed.

End Json.

(** C5, counterexample: a nested record with its own [document_id] field
    keeps that value, not the top-level key (file [b.json]), and the error
    of a mapping without documents is ["No valid documents found"], not
    ["no valid documents found"] (file [c.json]). *)
Lemma json_document_id_overridden :
  (exists d,
     outcome_documents (fst (Fixture.run_file "/e/b.json")) = [d] /\
     dict_get (metadata d) "document_id" = Some (JStr "x") /\
     dict_get (metadata d) "document_id" <> Some (JStr "meta")) /\
  Fixture.run_file "/e/c.json" = (inr (RFail "No valid documents found"), stats0) /\
  "No valid documents found" <> "no valid documents found".
Proof.
  split; [|split; [vm_compute; reflexivity|discriminate]].
  vm_compute; eexists; split; [reflexivity|]; split; [reflexivity|discriminate].
Qed.

(** C5, amended: a JSON file that exists and loads to a mapping whose
    nested objects have distinct keys, none of them empty, yields, for
    its top-level keys in order, one document per key that holds a string
    longer than 100 characters (that string as content, metadata
    [source], [file_type], [key]) and one per key that holds an object
    with a located content field (that field as content, its other
    scalar fields written over [source], [file_type] and
    [document_id] = key, so a nested [document_id] field wins); other keys
    yield nothing.  The ingestion fails with
    ["No valid documents found"], the counters unchanged, exactly when no
    key yields a document; otherwise it succeeds with these documents and
    the document count grows by their number. *)
Theorem json_mapping_documents :
  forall disk dec pj pc pp p kvs s,
    path_exists disk p = true ->
    str_lower (path_suffix p) = ".json" ->
    json_load disk dec pj p = inr (JObj kvs) ->
    (forall key o, In (key, JObj o) kvs -> NoDup (map fst o) /\ ~ In "" (map fst o)) ->
    (json_dict_documents p kvs = [] ->
     ingest_file disk dec pj pc pp p s = (inr (RFail "No valid documents found"), s)) /\
    (json_dict_documents p kvs <> [] ->
     ingest_file disk dec pj pc pp p s =
       (inr (RDocs (json_dict_documents p kvs)),
        add_documents (length (json_dict_documents p kvs)) s)) /\
    (json_dict_documents p kvs = [] <->
     forall kv, In kv kvs -> json_key_yields_document kv = false) /\
    Forall2 (json_key_document p) (filter json_key_yields_document kvs)
            (json_dict_documents p kvs).
Proof.
  intros disk dec pj pc pp p kvs s Hex Hsfx Hload Hnest.
  pose proof (Json.dict_documents_shape p kvs Hnest) as Hsh.
  assert (Hrun : ingest_file disk dec pj pc pp p s =
                 match json_dict_documents p kvs with
                 | [] => (inr (RFail "No valid documents found"), s)
                 | docs => (inr (RDocs docs), add_documents (length docs) s)
                 end).
  { unfold ingest_file; rewrite Hex, Hsfx; simpl.
    unfold ingest_json_file, try_except, bind, lift; rewrite Hload; simpl.
    destruct (json_dict_documents p kvs); reflexivity. }
  split; [|split; [|split; [|exact Hsh]]].
  - intro E; rewrite Hrun, E; reflexivity.
  - intro E; rewrite Hrun; destruct (json_dict_documents p kvs); [congruence|reflexivity].
  - rewrite (Json.forall2_nil_iff _ _ _ Hsh); apply Json.filter_nil_iff.
Qed.

Lemma json_mapping_documents_witness :
  exists d1 d2,
    Fixture.run_file "/e/a.json" = (inr (RDocs [d1; d2]), add_documents 2 stats0) /\
    metadata d1 = (reserved "/e/a.json" "json" ++ [("key", JStr "intro")])%list /\
    content d2 = "hello world" /\
    dict_get (metadata d2) "document_id" = Some (JStr "meta") /\
    dict_get (metadata d2) "tag" = Some (JStr "x").
Proof.
  assert (Hl : json_load Fixture.disk Fixture.utf8 Fixture.parse_json "/e/a.json" =
               inr (JObj [("intro", JStr Fixture.long_text);
                          ("meta", JObj [("content", JStr "hello world");
                                         ("tag", JStr "x")])])) by reflexivity.
  assert (Hn : forall key o,
             In (key, JObj o) [("intro", JStr Fixture.long_text);
                               ("meta", JObj [("content", JStr "hello world");
                                              ("tag", JStr "x")])] ->
             NoDup (map fst o) /\ ~ In "" (map fst o)).
  { intros key o [H|[H|[]]]; [discriminate|injection H as _ <-].
    split; [nodup_keys|simpl; intuition discriminate]. }
  destruct (json_mapping_documents Fixture.disk Fixture.utf8 Fixture.parse_json
              Fixture.parse_csv Fixture.parse_pdf "/e/a.json" _ stats0
              eq_refl eq_refl Hl Hn) as (_ & Hne & _ & _).
  assert (Hrun := Hne ltac:(vm_compute; discriminate)).
  unfold Fixture.run_file; rewrite Hrun; vm_compute.
  do 2 eexists; split; [reflexivity|].
  split; [reflexivity|split; [reflexivity|split; reflexivity]].
Defined.

(** * Further properties of the module *)

(** ** Counters *)

Module Accounting.

Lemma add_documents_0 s : add_documents 0 s = s.
Proof. destruct s; unfold add_documents; simpl; rewrite Nat.add_0_r; reflexivity. Qed.

Lemma mapM_keeps_state {A B} (f : A -> M B) l :
  (forall x s, snd (f x s) = s) -> forall s, mapM f l s = (fst (mapM f l s), s).
Proof.
  intro Hf; induction l as [|x l IH]; intro s; simpl; [reflexivity|].
  unfold bind; specialize (Hf x s); destruct (f x s) as [[e|y] s1]; simpl in *;
    [subst; reflexivity|subst s1].
  rewrite (IH s); destruct (fst (mapM f l s)); reflexivity.
Qed.

(** Case analysis on every test of an unfolded method body. *)
Ltac crunch :=
  repeat (match goal with
          | |- context [match ?x with _ => _ end] =>
              lazymatch x with
              | mapM _ _ _ => fail
              | context [match _ with _ => _ end] => fail
              | _ => destruct x eqn:?
              end
          end; cbn -[mapM] in *).

Section Counts.
Variable disk : filesystem.
Variable decode_utf8 : string -> string + string.
Variable parse_json : string -> string + json.
Variable parse_csv : string -> string + DataFrame.
Variable parse_pdf : string -> string + PdfDoc.

Let ingest_file' := ingest_file disk decode_utf8 parse_json parse_csv parse_pdf.

Lemma csv_rows_keep_state p df tc rows s :
  mapM (csv_row_document p df tc) rows s =
  (fst (mapM (csv_row_document p df tc) rows s), s).
Proof.
  apply mapM_keeps_state; intros row s'; unfold csv_row_document, bind, lift_opt.
  destruct (row_get df row tc); reflexivity.
Qed.

Ltac unfold_ingest :=
  unfold ingest_file', ingest_file, ingest_text_file, ingest_csv_file,
    ingest_json_file, ingest_pdf_file, try_except, bind, lift, lift_opt, ret,
    raise, modify, failure;
  crunch; try rewrite csv_rows_keep_state; crunch.

(** The accumulator after one file: the document count grows by the
    number of documents returned, nothing else changes. *)
Lemma ingest_file_stats p s :
  snd (ingest_file' p s) =
  add_documents (length (outcome_documents (fst (ingest_file' p s)))) s.
Proof. unfold_ingest; first [reflexivity | symmetry; apply add_documents_0]. Qed.

(** An existing path never makes [ingest_file] raise. *)
Lemma ingest_file_returns p s :
  path_exists disk p = true -> exists r, fst (ingest_file' p s) = inr r.
Proof.
  intro Hex; unfold_ingest;
    first [rewrite Hex in *; discriminate | eexists; reflexivity].
Qed.

Lemma ingest_file_raises p s :
  path_exists disk p = false ->
  ingest_file' p s = (inl (FileNotFoundError ("File not found: " ++ path_str p)), s).
Proof. intro H; unfold ingest_file', ingest_file; rewrite H; reflexivity. Qed.

Let docs_of (f : string) : nat :=
  length (outcome_documents (fst (ingest_file' f stats0))).

(** The loop of [ingest_directory] over a list of paths. *)
Lemma ingest_files_stats files s :
  ingest_files disk decode_utf8 parse_json parse_csv parse_pdf files s =
  (inr tt,
   mkStats (files_processed s + length (filter (path_exists disk) files))
           (documents_ingested s + list_sum (map docs_of files))
           (errors s + length (filter (fun f => negb (path_exists disk f)) files))).
Proof.
  revert s; induction files as [|f files IH]; intro s; simpl.
  - destruct s; simpl; rewrite !Nat.add_0_r; reflexivity.
  - unfold bind at 1, try_except.
    destruct (path_exists disk f) eqn:Ef; simpl.
    + destruct (ingest_file_returns f s Ef) as (r & Hr).
      pose proof (ingest_file_stats f s) as Hs.
      fold ingest_file'; destruct (ingest_file' f s) as [o s1] eqn:E; simpl in Hr, Hs.
      subst o; unfold bind; rewrite E; cbn -[ingest_files]; subst s1; rewrite IH.
      assert (Hd : docs_of f = length (result_documents r)).
      { unfold docs_of, ingest_file' in *.
        rewrite (ingest_file_stats_blind disk decode_utf8 parse_json parse_csv parse_pdf
                   f stats0 s), E; reflexivity. }
      rewrite Hd; unfold add_documents, incr_files_processed; simpl; f_equal; f_equal; lia.
    + fold ingest_file'; unfold bind; rewrite (ingest_file_raises f s Ef); cbn -[ingest_files].
      rewrite IH; unfold incr_errors; simpl.
      assert (Hd : docs_of f = 0).
      { unfold docs_of; rewrite (ingest_file_raises f stats0 Ef); reflexivity. }
      rewrite Hd; f_equal; f_equal; lia.
Qed.

End Counts.

End Accounting.

(** [ingest_file] adds to [documents_ingested] exactly the number of
    documents it returns, and leaves the accumulator as it was when it
    raises or reports a failure. *)
Theorem ingest_file_counts_returned_documents :
  forall disk dec pj pc pp p s,
    snd (ingest_file disk dec pj pc pp p s) =
    add_documents
      (length (outcome_documents (fst (ingest_file disk dec pj pc pp p s)))) s.
Proof. intros; apply Accounting.ingest_file_stats. Qed.

(** [ingest_file] raises exactly when the path does not exist: every
    failure of a reader or parser is caught and returned as a result. *)
Theorem ingest_file_raises_iff_missing :
  forall disk dec pj pc pp p s,
    (exists e, fst (ingest_file disk dec pj pc pp p s) = inl e) <->
    path_exists disk p = false.
Proof.
  intros disk dec pj pc pp p s; split.
  - intros (e & He); destruct (path_exists disk p) eqn:Ex; [|reflexivity].
    destruct (Accounting.ingest_file_returns disk dec pj pc pp p s Ex) as (r & Hr).
    congruence.
  - intro H; rewrite (Accounting.ingest_file_raises disk dec pj pc pp p s H).
    eexists; reflexivity.
Qed.

(** On an existing directory, and with an extension filter that holds no
    glob wildcard ([*], [?], [[]) and no ['/'], [ingest_directory] returns
    its updated counters: [files_processed] grows by the number of listed
    paths that exist, [errors] by the number of listed paths that do not
    (only a missing file makes [ingest_file] raise), and
    [documents_ingested] by the number of documents each listed file
    yields. *)
Theorem ingest_directory_totals :
  forall disk dec pj pc pp dir ext children s,
    dict_get disk (path_str dir) = Some (EDir children) ->
    (forall e, ext = Some e -> glob_literal e = true) ->
    let files := list_files disk children ext in
    let s' := mkStats
                (files_processed s + length (filter (path_exists disk) files))
                (documents_ingested s +
                 list_sum (map (fun f => length (outcome_documents
                                  (fst (ingest_file disk dec pj pc pp f stats0))))
                               files))
                (errors s + length (filter (fun f => negb (path_exists disk f)) files)) in
    ingest_directory disk dec pj pc pp dir ext s = (inr s', s').
Proof.
  intros disk dec pj pc pp dir ext children s Hdir _ files s'.
  unfold ingest_directory, try_except; rewrite Hdir.
  unfold bind at 1; rewrite Accounting.ingest_files_stats; reflexivity.
Qed.

Lemma ingest_directory_totals_witness :
  ingest_directory Fixture.disk Fixture.utf8 Fixture.parse_json Fixture.parse_csv
    Fixture.parse_pdf "/e/" (Some ".json") stats0 =
  (inr (mkStats 3 3 0), mkStats 3 3 0).
Proof.
  rewrite (ingest_directory_totals Fixture.disk Fixture.utf8 Fixture.parse_json
             Fixture.parse_csv Fixture.parse_pdf "/e/" (Some ".json") _ stats0
             eq_refl (fun e He => match He in _ = o return
                                    (match o with Some e' => glob_literal e' = true
                                                | None => True end) with
                                  | eq_refl => eq_refl end)).
  vm_compute; reflexivity.
Defined.

(** [ingest_directory] never raises, returns its counters, and adds to
    them amounts that do not depend on their starting values: the
    counters are never reset, so ingesting a directory twice adds its
    amounts twice. *)
Theorem ingest_directory_accumulates :
  forall disk dec pj pc pp dir ext s,
    let d := snd (ingest_directory disk dec pj pc pp dir ext stats0) in
    ingest_directory disk dec pj pc pp dir ext s = (inr (stats_plus s d), stats_plus s d).
Proof.
  intros disk dec pj pc pp dir ext s d; subst d.
  unfold ingest_directory, try_except.
  destruct (dict_get disk (path_str dir)) as [[b|children]|];
    try (destruct s; unfold stats_plus; simpl; rewrite !Nat.add_0_r; reflexivity).
  unfold bind; rewrite !Accounting.ingest_files_stats.
  unfold stats_plus; simpl; reflexivity.
Qed.

(** Two files ingested one after the other leave the same counters in
    either order. *)
Theorem ingest_file_counters_commute :
  forall disk dec pj pc pp p q s,
    snd (ingest_file disk dec pj pc pp q (snd (ingest_file disk dec pj pc pp p s))) =
    snd (ingest_file disk dec pj pc pp p (snd (ingest_file disk dec pj pc pp q s))).
Proof.
  intros disk dec pj pc pp p q s.
  set (sp := snd (ingest_file disk dec pj pc pp p s)).
  set (sq := snd (ingest_file disk dec pj pc pp q s)).
  rewrite (Accounting.ingest_file_stats disk dec pj pc pp q sp),
    (Accounting.ingest_file_stats disk dec pj pc pp p sq).
  rewrite (ingest_file_stats_blind disk dec pj pc pp q sp s),
    (ingest_file_stats_blind disk dec pj pc pp p sq s).
  subst sp sq; rewrite (Accounting.ingest_file_stats disk dec pj pc pp p s),
    (Accounting.ingest_file_stats disk dec pj pc pp q s).
  destruct s; unfold add_documents; simpl; f_equal; lia.
Qed.

(** ** Paths that are not regular files, names without a suffix *)

Module Suffix.

Lemma rfind_absent c l : forall i acc, ~ In c l -> rfind_from c l i acc = acc.
Proof.
  induction l as [|x l IH]; intros i acc Hc; simpl; [reflexivity|].
  rewrite IH by (intro H; apply Hc; right; exact H).
  destruct (Ascii.eqb_spec x c) as [->|_]; [exfalso; apply Hc; left; reflexivity|].
  reflexivity.
Qed.

(** A name whose only ['.'], if any, is its first character has no
    suffix. *)
Lemma suffix_empty p :
  ~ In dot (tl (list_ascii_of_string (path_name p))) -> path_suffix p = "".
Proof.
  unfold path_suffix; intro H.
  destruct (list_ascii_of_string (path_name p)) as [|x rest]; simpl in *; [reflexivity|].
  rewrite rfind_absent by exact H.
  destruct (Ascii.eqb x dot); reflexivity.
Qed.

End Suffix.

(** A path that exists but is a directory is never ingested and never
    makes [ingest_file] raise: the result is a failure and the counters
    are unchanged, whatever its suffix. *)
Theorem ingest_file_on_directory_fails :
  forall disk dec pj pc pp p children s,
    dict_get disk (path_str p) = Some (EDir children) ->
    exists e, ingest_file disk dec pj pc pp p s = (inr (RFail e), s).
Proof.
  intros disk dec pj pc pp p children s Hdir.
  assert (Hrb : read_bytes disk p =
                inl ("[Errno 21] Is a directory: '" ++ path_str p ++ "'"))
    by (unfold read_bytes; rewrite Hdir; reflexivity).
  unfold ingest_file, path_exists, dict_mem; rewrite Hdir; cbn [negb].
  unfold ingest_text_file, ingest_csv_file, ingest_json_file, ingest_pdf_file,
    json_load, read_csv, pdf_reader; unfold read_text, and_then, try_except, bind,
    lift, failure; rewrite Hrb.
  repeat match goal with |- context [if ?b then _ else _] => destruct b end;
    eexists; reflexivity.
Qed.

Lemma ingest_file_on_directory_fails_witness :
  ingest_file [("/x/data.json", EDir [])] Fixture.utf8 Fixture.parse_json
    Fixture.parse_csv Fixture.parse_pdf "/x/data.json/" stats0 =
  (inr (RFail "[Errno 21] Is a directory: '/x/data.json'"), stats0).
Proof.
  destruct (ingest_file_on_directory_fails [("/x/data.json", EDir [])] Fixture.utf8
              Fixture.parse_json Fixture.parse_csv Fixture.parse_pdf "/x/data.json/"
              _ stats0 eq_refl) as (e & He).
  rewrite He; vm_compute in He; injection He as <-; reflexivity.
Defined.

(** An existing file whose name has no ['.'] after its first character
    (no dot at all, or a hidden name such as [.txt]) has no suffix, so it
    is reported as an unsupported format and the counters are unchanged. *)
Theorem ingest_file_no_suffix_unsupported :
  forall disk dec pj pc pp p s,
    path_exists disk p = true ->
    ~ In dot (tl (list_ascii_of_string (path_name p))) ->
    ingest_file disk dec pj pc pp p s = (inr (RFail "Unsupported file format"), s).
Proof.
  intros disk dec pj pc pp p s Hex Hdot.
  unfold ingest_file; rewrite Hex, (Suffix.suffix_empty p Hdot); reflexivity.
Qed.

Lemma ingest_file_no_suffix_unsupported_witness :
  ingest_file [("/d/.txt", EFile "Patient notes")] Fixture.utf8 Fixture.parse_json
    Fixture.parse_csv Fixture.parse_pdf "/d/.txt/" stats0 =
  (inr (RFail "Unsupported file format"), stats0).
Proof.
  apply ingest_file_no_suffix_unsupported; [reflexivity|].
  vm_compute; intuition discriminate.
Defined.

(** A readable text file becomes one document: its whole decoded text
    as content and exactly [{source: file name, file_type: "txt"}] as
    metadata; the document count grows by one. *)
Theorem ingest_text_file_document :
  forall disk dec pj pc pp p text s,
    path_exists disk p = true ->
    str_lower (path_suffix p) = ".txt" ->
    read_text disk dec p = inr text ->
    ingest_file disk dec pj pc pp p s =
      (inr (ROneDoc (mkDoc text [("source", JStr (path_name p));
                                 ("file_type", JStr "txt")])),
       add_documents 1 s).
Proof.
  intros disk dec pj pc pp p text s Hex Hsfx Hread.
  unfold ingest_file; rewrite Hex, Hsfx; cbn [negb String.eqb Ascii.eqb Bool.eqb].
  unfold ingest_text_file, try_except, bind, lift; rewrite Hread; reflexivity.
Qed.

Lemma ingest_text_file_document_witness :
  Fixture.run_file "/d/notes.txt" =
  (inr (ROneDoc (mkDoc "Patient notes" [("source", JStr "notes.txt");
                                        ("file_type", JStr "txt")])),
   add_documents 1 stats0).
Proof.
  apply (ingest_text_file_document Fixture.disk Fixture.utf8 Fixture.parse_json
           Fixture.parse_csv Fixture.parse_pdf "/d/notes.txt" "Patient notes" stats0);
    reflexivity.
Defined.

(** When the reader or parser of a supported format fails, [ingest_file]
    returns a failure carrying that library's error message, and the
    counters are unchanged. *)
Theorem ingest_file_library_failure :
  forall disk dec pj pc pp p e s,
    path_exists disk p = true ->
    let failed := (inr (RFail e), s) in
    (str_lower (path_suffix p) = ".txt" -> read_text disk dec p = inl e ->
     ingest_file disk dec pj pc pp p s = failed) /\
    (str_lower (path_suffix p) = ".csv" -> read_csv disk pc p = inl e ->
     ingest_file disk dec pj pc pp p s = failed) /\
    (str_lower (path_suffix p) = ".json" -> json_load disk dec pj p = inl e ->
     ingest_file disk dec pj pc pp p s = failed) /\
    (str_lower (path_suffix p) = ".pdf" -> pdf_reader disk pp p = inl e ->
     ingest_file disk dec pj pc pp p s = failed).
Proof.
  intros disk dec pj pc pp p e s Hex failed; subst failed.
  repeat split; intros Hsfx Hr; unfold ingest_file; rewrite Hex, Hsfx; cbn [negb];
    simpl.
  - unfold ingest_text_file, try_except, bind, lift; rewrite Hr; reflexivity.
  - unfold ingest_csv_file, try_except, bind, lift; rewrite Hr; reflexivity.
  - unfold ingest_json_file, try_except, bind, lift; rewrite Hr; reflexivity.
  - unfold ingest_pdf_file, try_except, bind, lift; rewrite Hr; reflexivity.
Qed.

Lemma ingest_file_library_failure_witness :
  ingest_file [("/x/bad.json", EFile "not json")] Fixture.utf8 Fixture.parse_json
    Fixture.parse_csv Fixture.parse_pdf "/x/bad.json" stats0 =
  (inr (RFail "parse error"), stats0).
Proof.
  destruct (ingest_file_library_failure [("/x/bad.json", EFile "not json")]
              Fixture.utf8 Fixture.parse_json Fixture.parse_csv Fixture.parse_pdf
              "/x/bad.json" "parse error" stats0 eq_refl) as (_ & _ & Hj & _).
  apply Hj; reflexivity.
Defined.

(** ** JSON files *)

Module JsonMore.

Lemma in_set {V} (d : dict V) k v x y :
  In (x, y) (dict_set d k v) -> (x, y) = (k, v) \/ In (x, y) d.
Proof.
  induction d as [|[k0 v0] d IH]; simpl.
  - intros [H|[]]; left; symmetry; exact H.
  - destruct (String.eqb_spec k k0) as [->|_]; simpl.
    + intros [H|H]; [left; symmetry; exact H|right; right; exact H].
    + intros [H|H]; [right; left; exact H|].
      destruct (IH H) as [E|E]; [left; exact E|right; right; exact E].
Qed.

Lemma in_set_all {V} (kvs : list (string * V)) : forall (d : dict V) x y,
  In (x, y) (dict_set_all d kvs) -> In (x, y) d \/ In (x, y) kvs.
Proof.
  induction kvs as [|[k v] kvs IH]; intros d x y; simpl; intro H; [left; exact H|].
  destruct (IH _ _ _ H) as [H'|H']; [|right; right; exact H'].
  destruct (in_set d k v x y H') as [E|E]; [right; left; symmetry; exact E|left; exact E].
Qed.

Lemma list_documents_shape p xs :
  (forall o, In (JObj o) xs -> NoDup (map fst o) /\ ~ In "" (map fst o)) ->
  Forall2 (json_item_document p) (filter json_item_yields_document xs)
          (json_list_documents p xs).
Proof.
  induction xs as [|x xs IH]; intro Hnest; [constructor|].
  assert (IH' := IH (fun o H => Hnest o (or_intror H))).
  unfold json_list_documents in *; cbn [flat_map filter].
  unfold json_item_yields_document at 1.
  destruct x as [| | | | | |o]; cbn [app]; try exact IH'.
  destruct (Hnest o (or_introl eq_refl)) as [Hnd Hne].
  pose proof (Json.record_document_shape (reserved p "json") o Hnd Hne) as Hsh.
  destruct (identify_json_content_field o) as [f|] eqn:Ef.
  - destruct Hsh as (c & Hc & ->); simpl; constructor; [|exact IH'].
    exists f; split; [exact Ef|split; [exact Hc|]].
    intro k; simpl; rewrite Dict.get_set_all, Csv.get_rev_nodup
      by (apply Json.nodup_filter, Hnd); reflexivity.
  - rewrite Hsh; exact IH'.
Qed.

Lemma record_scalar md0 item d :
  (forall k v, In (k, v) md0 -> is_scalar v = true) ->
  In d (json_record_document md0 item) ->
  forall k v, In (k, v) (metadata d) -> is_scalar v = true.
Proof.
  intros Hmd; unfold json_record_document.
  destruct (identify_json_content_field item) as [f|]; [|intros []].
  destruct (String.eqb f ""); [intros []|].
  destruct (dict_get item f) as [[]|];
    try (match goal with |- In _ [] -> _ => intros [] end).
  intros [<-|[]] k v H; simpl in H.
  destruct (in_set_all _ _ _ _ H) as [H'|H']; [exact (Hmd _ _ H')|].
  unfold json_extra in H'; apply filter_In in H'; destruct H' as [_ H'].
  apply andb_prop in H'; apply H'.
Qed.

Lemma documents_scalar p data d :
  In d (json_documents p data) ->
  forall k v, In (k, v) (metadata d) -> is_scalar v = true.
Proof.
  destruct data as [| | | | |xs|kvs]; simpl; try (intros []).
  - unfold json_list_documents; intro H; apply in_flat_map in H.
    destruct H as ([| | | | | |o] & _ & H); try destruct H.
    refine (record_scalar _ _ _ _ H); intros k v Hk.
    destruct Hk as [Hk|[Hk|[]]]; injection Hk as _ <-; reflexivity.
  - unfold json_dict_documents; intro H; apply in_flat_map in H.
    destruct H as ([key [| | | |str| |o]] & _ & H); try destruct H.
    + destruct (Nat.ltb 100 (String.length str)); [|destruct H].
      destruct H as [<-|[]]; simpl; intros k v [H|[H|[H|[]]]];
        injection H as _ <-; reflexivity.
    + refine (record_scalar _ _ _ _ H); intros k v Hk.
      destruct Hk as [Hk|[Hk|[Hk|[]]]]; injection Hk as _ <-; reflexivity.
Qed.

End JsonMore.

(** A JSON file holding a list (whose objects have distinct, non-empty
    keys) yields, in list order, one document per object with a located
    content field: that field as content, the object's other scalar
    fields written over [{source, file_type: "json"}] as metadata; other
    items yield nothing.  The ingestion fails with
    ["No valid documents found"], counters unchanged, exactly when no item
    yields a document; otherwise the document count grows by their
    number. *)
Theorem json_array_documents :
  forall disk dec pj pc pp p xs s,
    path_exists disk p = true ->
    str_lower (path_suffix p) = ".json" ->
    json_load disk dec pj p = inr (JArr xs) ->
    (forall o, In (JObj o) xs -> NoDup (map fst o) /\ ~ In "" (map fst o)) ->
    (json_list_documents p xs = [] ->
     ingest_file disk dec pj pc pp p s = (inr (RFail "No valid documents found"), s)) /\
    (json_list_documents p xs <> [] ->
     ingest_file disk dec pj pc pp p s =
       (inr (RDocs (json_list_documents p xs)),
        add_documents (length (json_list_documents p xs)) s)) /\
    (json_list_documents p xs = [] <->
     forall x, In x xs -> json_item_yields_document x = false) /\
    Forall2 (json_item_document p) (filter json_item_yields_document xs)
            (json_list_documents p xs).
Proof.
  intros disk dec pj pc pp p xs s Hex Hsfx Hload Hnest.
  pose proof (JsonMore.list_documents_shape p xs Hnest) as Hsh.
  assert (Hrun : ingest_file disk dec pj pc pp p s =
                 match json_list_documents p xs with
                 | [] => (inr (RFail "No valid documents found"), s)
                 | docs => (inr (RDocs docs), add_documents (length docs) s)
                 end).
  { unfold ingest_file; rewrite Hex, Hsfx; simpl.
    unfold ingest_json_file, try_except, bind, lift; rewrite Hload; simpl.
    destruct (json_list_documents p xs); reflexivity. }
  split; [|split; [|split; [|exact Hsh]]].
  - intro E; rewrite Hrun, E; reflexivity.
  - intro E; rewrite Hrun; destruct (json_list_documents p xs); [congruence|reflexivity].
  - rewrite (Json.forall2_nil_iff _ _ _ Hsh); apply Json.filter_nil_iff.
Qed.

Lemma json_array_documents_witness :
  exists d,
    ingest_file [("/x/l.json", EFile "L")] Fixture.utf8
      (Fixture.table_parser [("L", JArr [JInt 7;
                                 JObj [("id", JInt 1); ("text", JStr "aspirin")];
                                 JObj [("id", JInt 2)]])])
      Fixture.parse_csv Fixture.parse_pdf "/x/l.json" stats0 =
    (inr (RDocs [d]), add_documents 1 stats0) /\
    content d = "aspirin" /\ dict_get (metadata d) "id" = Some (JInt 1).
Proof.
  destruct (json_array_documents [("/x/l.json", EFile "L")] Fixture.utf8
              (Fixture.table_parser [("L", JArr [JInt 7;
                                         JObj [("id", JInt 1); ("text", JStr "aspirin")];
                                         JObj [("id", JInt 2)]])])
              Fixture.parse_csv Fixture.parse_pdf "/x/l.json" _ stats0
              eq_refl eq_refl eq_refl) as (_ & Hne & _ & _).
  - intros o [H|[H|[H|[]]]]; try discriminate; injection H as <-;
      (split; [nodup_keys|simpl; intuition discriminate]).
  - rewrite (Hne ltac:(vm_compute; discriminate)); vm_compute.
    eexists; split; [reflexivity|split; reflexivity].
Defined.

(** A JSON file whose payload is a scalar, [null], an empty list or an
    empty object yields no document: the ingestion fails with
    ["No valid documents found"] and the counters are unchanged. *)
Theorem json_payload_without_documents :
  forall disk dec pj pc pp p v s,
    path_exists disk p = true ->
    str_lower (path_suffix p) = ".json" ->
    json_load disk dec pj p = inr v ->
    v = JNull \/ is_scalar v = true \/ v = JArr [] \/ v = JObj [] ->
    ingest_file disk dec pj pc pp p s = (inr (RFail "No valid documents found"), s).
Proof.
  intros disk dec pj pc pp p v s Hex Hsfx Hload Hv.
  unfold ingest_file; rewrite Hex, Hsfx; simpl.
  unfold ingest_json_file, try_except, bind, lift; rewrite Hload.
  destruct Hv as [-> | [Hv | [-> | ->]]]; try reflexivity.
  destruct v; try discriminate; reflexivity.
Qed.

Lemma json_payload_without_documents_witness :
  ingest_file [("/x/n.json", EFile "N")] Fixture.utf8
    (Fixture.table_parser [("N", JStr "just a string")])
    Fixture.parse_csv Fixture.parse_pdf "/x/n.json" stats0 =
  (inr (RFail "No valid documents found"), stats0).
Proof.
  apply (json_payload_without_documents _ _ _ _ _ _ (JStr "just a string"));
    [reflexivity|reflexivity|reflexivity|].
  right; left; reflexivity.
Defined.

(** Every metadata value of a document ingested from a JSON file is a
    string, an integer, a float or a boolean: [null], lists and objects
    are never copied into the metadata. *)
Theorem json_metadata_values_scalar :
  forall disk dec pj pc pp p s d,
    str_lower (path_suffix p) = ".json" ->
    In d (outcome_documents (fst (ingest_file disk dec pj pc pp p s))) ->
    forall k v, In (k, v) (metadata d) -> is_scalar v = true.
Proof.
  intros disk dec pj pc pp p s d Hsfx.
  unfold ingest_file; destruct (path_exists disk p); simpl; [|intros []].
  rewrite Hsfx; simpl.
  unfold ingest_json_file, try_except, bind, lift.
  destruct (json_load disk dec pj p) as [e|data]; simpl; [intros []|].
  destruct (json_documents p data) as [|d0 ds] eqn:E; simpl; [intros []|].
  intro Hin; apply (JsonMore.documents_scalar p data d); rewrite E; exact Hin.
Qed.

Lemma json_metadata_values_scalar_witness :
  exists d,
    In d (outcome_documents (fst (ingest_file [("/x/n.json", EFile "N")]
       Fixture.utf8
       (Fixture.table_parser
          [("N", JArr [JObj [("text", JStr "hello"); ("score", JFloat FNaN);
                             ("rank", JFloat (FInfinity true))]])])
       Fixture.parse_csv Fixture.parse_pdf "/x/n.json" stats0))) /\
    In ("score", JFloat FNaN) (metadata d) /\ is_scalar (JFloat FNaN) = true.
Proof.
  set (pj := Fixture.table_parser
               [("N", JArr [JObj [("text", JStr "hello"); ("score", JFloat FNaN);
                                  ("rank", JFloat (FInfinity true))]])]).
  assert (Hd : exists d,
             In d (outcome_documents (fst (ingest_file [("/x/n.json", EFile "N")]
                Fixture.utf8 pj Fixture.parse_csv Fixture.parse_pdf "/x/n.json"
                stats0))) /\
             In ("score", JFloat FNaN) (metadata d)).
  { vm_compute; eexists; split; [left; reflexivity|].
    right; right; left; reflexivity. }
  destruct Hd as (d & Hin & Hsc); exists d; split; [exact Hin|split; [exact Hsc|]].
  exact (json_metadata_values_scalar [("/x/n.json", EFile "N")] Fixture.utf8 pj
           Fixture.parse_csv Fixture.parse_pdf "/x/n.json" stats0 d eq_refl Hin
           "score" (JFloat FNaN) Hsc).
Defined.

(** The field the JSON locator returns is always a key of the object
    holding a string, so [item[content_field]] never fails and the
    content of a JSON document is always a string. *)
Theorem json_located_field_holds_string :
  forall item f,
    NoDup (map fst item) ->
    identify_json_content_field item = Some f ->
    exists c, dict_get item f = Some (JStr c).
Proof. intros item f Hnd Hf; exact (Json.identify_some item f Hnd Hf). Qed.

Lemma json_located_field_holds_string_witness :
  exists c,
    dict_get [("id", JInt 3); ("summary", JStr Fixture.long_text)] "summary" =
      Some (JStr c).
Proof.
  apply (json_located_field_holds_string _ "summary"); [nodup_keys|].
  vm_compute; reflexivity.
Defined.

(** ** PDF metadata and the column locator *)

Module Lower.

Lemma ascii_lower_idem c : ascii_lower (ascii_lower c) = ascii_lower c.
Proof.
  destruct c as [[] [] [] [] [] [] [] []]; vm_compute; reflexivity.
Qed.

Lemma str_lower_idem s : str_lower (str_lower s) = str_lower s.
Proof.
  unfold str_lower; rewrite list_ascii_of_string_of_list_ascii, map_map.
  f_equal; apply map_ext, ascii_lower_idem.
Qed.

End Lower.

Module ColumnMore.

Lemma first_present_in names cols name :
  first_present names cols = Some name -> In name cols.
Proof.
  induction names as [|n names IH]; simpl; [discriminate|].
  destruct (existsb (String.eqb n) cols) eqn:E; [|exact IH].
  intro H; injection H as <-; apply ColumnLocator.existsb_name, E.
Qed.

Lemma avg_lengths_keys df k v :
  In (k, v) (avg_lengths df) -> In k (df_names df).
Proof.
  unfold avg_lengths; intro H.
  destruct (JsonMore.in_set_all _ _ _ _ H) as [[]|H'].
  apply in_map_iff in H'; destruct H' as (c & Hc & Hin).
  injection Hc as <- _; apply filter_In in Hin.
  unfold df_names; apply in_map, Hin.
Qed.

Lemma hd_error_in {A} (l : list A) x : hd_error l = Some x -> In x l.
Proof. destruct l; simpl; [discriminate|]; intro H; injection H as ->; left; reflexivity. Qed.

End ColumnMore.

(** Every metadata entry of a PDF document is either one of the
    reserved entries [source], [file_type], [num_pages] or comes from a
    non-empty string entry of the document info, under its key stripped
    of a leading ['/'] and lower-cased (so the key is in lower case);
    info entries whose value is empty or not a string are never
    copied. *)
Theorem pdf_metadata_entries :
  forall disk dec pj pc pp p doc s d,
    str_lower (path_suffix p) = ".pdf" ->
    pdf_reader disk pp p = inr doc ->
    In d (outcome_documents (fst (ingest_file disk dec pj pc pp p s))) ->
    forall k v, In (k, v) (metadata d) ->
      In (k, v) (pdf_reserved p doc) \/
      exists info key str,
        pdf_metadata doc = Some info /\ In (key, JStr str) info /\
        key <> "" /\ str <> "" /\
        k = str_lower (clean_key key) /\ v = JStr str /\ str_lower k = k.
Proof.
  intros disk dec pj pc pp p doc s d Hsfx Hread.
  unfold ingest_file; destruct (path_exists disk p); simpl; [|intros []].
  rewrite Hsfx; simpl.
  unfold ingest_pdf_file, try_except, bind, lift; rewrite Hread; simpl.
  intros [<-|[]] k v H; simpl in H; unfold pdf_document_metadata in H.
  destruct (JsonMore.in_set_all _ _ _ _ H) as [H'|H']; [left; exact H'|right].
  destruct (pdf_metadata doc) as [info|]; [|destruct H'].
  destruct (Pdf.extra_keys info k v H') as (key & str & Hin & Hk & Hs & -> & ->).
  exists info, key, str; repeat split; try assumption.
  apply Lower.str_lower_idem.
Qed.

Lemma pdf_metadata_entries_witness :
  exists d,
    In d (outcome_documents (fst (Fixture.run_file "/e/r.pdf"))) /\
    In ("title", JStr "Guide") (metadata d) /\
    ~ In ("title", JStr "Guide")
        (pdf_reserved "/e/r.pdf" (mkPdfDoc ["Intro"; ""; "End"]
                                           (Some [("/Title", JStr "Guide")]))).
Proof.
  assert (Hd : exists d, In d (outcome_documents (fst (Fixture.run_file "/e/r.pdf"))) /\
                         In ("title", JStr "Guide") (metadata d)).
  { vm_compute; eexists; split; [left; reflexivity|].
    right; right; right; left; reflexivity. }
  destruct Hd as (d & Hin & Ht); exists d; split; [exact Hin|split; [exact Ht|]].
  destruct (pdf_metadata_entries Fixture.disk Fixture.utf8 Fixture.parse_json
              Fixture.parse_csv Fixture.parse_pdf "/e/r.pdf" _ stats0 d
              eq_refl eq_refl Hin "title" (JStr "Guide") Ht) as [H|H].
  - vm_compute in H; exfalso; intuition discriminate.
  - vm_compute; intuition discriminate.
Defined.

(** On a frame with distinct column names, the column locator only fails
    on a frame without columns, and otherwise returns the name of one of
    the frame's columns. *)
Theorem content_column_total :
  forall df,
    NoDup (df_names df) ->
    (identify_content_column df = None <-> df_columns df = []) /\
    (forall c, identify_content_column df = Some c -> In c (df_names df)).
Proof.
  intros df _; unfold identify_content_column; split.
  - destruct (first_present content_field_names (df_names df)) as [n|] eqn:E1.
    + split; [discriminate|]; intro H.
      apply ColumnMore.first_present_in in E1; unfold df_names in E1; rewrite H in E1.
      destruct E1.
    + destruct (avg_lengths df) as [|a rest] eqn:E2.
      * unfold df_names; destruct (df_columns df); simpl; split; congruence.
      * split; [discriminate|]; intro H.
        assert (Ha : In a (avg_lengths df)) by (rewrite E2; left; reflexivity).
        destruct a as [k v]; apply ColumnMore.avg_lengths_keys in Ha.
        unfold df_names in Ha; rewrite H in Ha; destruct Ha.
  - intro c.
    destruct (first_present content_field_names (df_names df)) as [n|] eqn:E1.
    + intro H; injection H as <-; exact (ColumnMore.first_present_in _ _ _ E1).
    + destruct (avg_lengths df) as [|a rest] eqn:E2.
      * apply ColumnMore.hd_error_in.
      * intro H; injection H as <-.
        pose proof (Csv.py_max_by_in pyfloat_gt snd rest a) as Hin.
        rewrite <- E2 in Hin.
        destruct (py_max_by pyfloat_gt snd a rest) as [k v]; simpl.
        exact (ColumnMore.avg_lengths_keys _ _ _ Hin).
Qed.

Lemma content_column_total_witness :
  NoDup (df_names (mkDataFrame [mkColumn "id" false; mkColumn "summary" true]
                               [[CVal "1"; CVal "short"]])) /\
  identify_content_column (mkDataFrame [mkColumn "id" false; mkColumn "summary" true]
                                       [[CVal "1"; CVal "short"]]) <> None /\
  In "summary" (df_names (mkDataFrame [mkColumn "id" false; mkColumn "summary" true]
                                      [[CVal "1"; CVal "short"]])).
Proof.
  assert (HN : NoDup (df_names (mkDataFrame [mkColumn "id" false;
                                             mkColumn "summary" true]
                                            [[CVal "1"; CVal "short"]])))
    by (repeat constructor; simpl; intuition discriminate).
  destruct (content_column_total _ HN) as [Hnone Hin].
  split; [exact HN|split].
  - intro H; apply Hnone in H; discriminate H.
  - apply Hin; vm_compute; reflexivity.
Defined.
